(** * envoy-wasm-error-pages: a shallow embedding and its properties

    The development follows the packages of the repository:
    - [utf8], [GoStrings], [strconv]: the parts of Go's [unicode/utf8],
      [strings] and [strconv] packages that the program calls, on byte
      strings;
    - [errorpages]: the status catalog and the string-replacement
      template engine;
    - [errorpages_tmpl]: the comment-unwrapping preprocessor of the
      [text/template] variant of the same package;
    - [config]: the line-based configuration reader;
    - [plugin]: the per-request HTTP context of [main.go] over a model of
      the proxy host;
    - [spec]: the vocabulary in which the properties are stated.

    A Go [string] is a sequence of bytes: it is embedded as [string], whose
    characters are the 256 values of [ascii]. Go's [int] is embedded as [Z];
    indices keep Go's convention that [-1] means "not found". Loops whose
    recursion is not structural take a fuel argument and return [None] when
    it runs out; Part II shows that it never does. *)

From Stdlib Require Import ZArith Lia Bool Ascii String List DecimalString.
From stdpp Require Import base option gmap strings.

Local Open Scope Z_scope.

(* ================================================================== *)
(** * Part I: definitions                                              *)
(* ================================================================== *)

(** ** Bytes and UTF-8 sequences *)

Module utf8.

Definition byte_val (c : ascii) : Z := Z.of_N (N_of_ascii c).

Definition in_range (c : ascii) (lo hi : Z) : bool :=
  (lo <=? byte_val c) && (byte_val c <=? hi).

(** Width of a three-byte sequence whose second byte must lie in
    [lo..hi]; an ill-formed or truncated sequence has width 1. *)
Definition seq3 (rest : string) (lo hi : Z) : nat :=
  match rest with
  | String b1 (String b2 _) =>
      if in_range b1 lo hi && in_range b2 128 191 then 3%nat else 1%nat
  | _ => 1%nat
  end.

Definition seq4 (rest : string) (lo hi : Z) : nat :=
  match rest with
  | String b1 (String b2 (String b3 _)) =>
      if in_range b1 lo hi && in_range b2 128 191 && in_range b3 128 191
      then 4%nat else 1%nat
  | _ => 1%nat
  end.

(** [width s] is the size returned by [utf8.DecodeRuneInString s]:
    the length of the first UTF-8 sequence, 1 for an invalid byte and
    0 for the empty string. *)
Definition width (s : string) : nat :=
  match s with
  | EmptyString => 0%nat
  | String b0 rest =>
      let x := byte_val b0 in
      if x <? 128 then 1%nat
      else if (194 <=? x) && (x <=? 223) then
        match rest with
        | String b1 _ => if in_range b1 128 191 then 2%nat else 1%nat
        | EmptyString => 1%nat
        end
      else if x =? 224 then seq3 rest 160 191
      else if ((225 <=? x) && (x <=? 236)) || ((238 <=? x) && (x <=? 239))
      then seq3 rest 128 191
      else if x =? 237 then seq3 rest 128 159
      else if x =? 240 then seq4 rest 144 191
      else if (241 <=? x) && (x <=? 243) then seq4 rest 128 191
      else if x =? 244 then seq4 rest 128 143
      else 1%nat
  end.

End utf8.

(** ** Go's [strings] package *)

Module GoStrings.

Definition len (s : string) : Z := Z.of_nat (String.length s).

Fixpoint skipn (n : nat) (s : string) : string :=
  match n, s with
  | O, _ => s
  | S k, String _ s' => skipn k s'
  | S _, EmptyString => EmptyString
  end.

Fixpoint firstn (n : nat) (s : string) : string :=
  match n, s with
  | O, _ => EmptyString
  | S k, String c s' => String c (firstn k s')
  | S _, EmptyString => EmptyString
  end.

(** [s[lo:hi]], [s[lo:]] and [s[:hi]]. Go panics on a slice that is out
    of range; the program only slices within range, and this model
    clamps instead. *)
Definition slice (s : string) (lo hi : Z) : string :=
  firstn (Z.to_nat (hi - lo)) (skipn (Z.to_nat lo) s).
Definition sliceFrom (s : string) (lo : Z) : string := skipn (Z.to_nat lo) s.
Definition sliceTo (s : string) (hi : Z) : string := firstn (Z.to_nat hi) s.

(** [s[i]]: [None] stands for Go's index-out-of-range panic. *)
Definition at_index (s : string) (i : Z) : option ascii :=
  if (0 <=? i) && (i <? len s) then String.get (Z.to_nat i) s else None.

Fixpoint rev (s : string) : string :=
  match s with
  | EmptyString => EmptyString
  | String c s' => rev s' +:+ String c EmptyString
  end.

Definition HasPrefix (s p : string) : bool := String.prefix p s.

Definition HasSuffix (s suffix : string) : bool :=
  (len suffix <=? len s) && String.eqb (sliceFrom s (len s - len suffix)) suffix.

Definition TrimPrefix (s p : string) : string :=
  if HasPrefix s p then sliceFrom s (len p) else s.

Definition TrimSuffix (s suffix : string) : string :=
  if HasSuffix s suffix then sliceTo s (len s - len suffix) else s.

Fixpoint index_nat (s sub : string) {struct s} : option nat :=
  if String.prefix sub s then Some O
  else match s with
       | EmptyString => None
       | String _ s' => S <$> index_nat s' sub
       end.

(** [strings.Index]: position of the first occurrence, [-1] if none. *)
Definition Index (s sub : string) : Z :=
  match index_nat s sub with
  | Some n => Z.of_nat n
  | None => -1
  end.

Definition Contains (s sub : string) : bool := 0 <=? Index s sub.

(** Pieces of [s] cut at the UTF-8 sequence boundaries. [skip] counts
    the bytes of the current sequence that are still to be consumed. *)
Fixpoint explode_go (skip : nat) (s : string) : string * list string :=
  match s with
  | EmptyString => (EmptyString, [])
  | String c s' =>
      match skip with
      | S k => let '(p, ps) := explode_go k s' in (String c p, ps)
      | O => let '(p, ps) := explode_go (utf8.width s - 1) s' in
             (EmptyString, String c p :: ps)
      end
  end.

Definition explode (s : string) : list string := snd (explode_go 0 s).

(** Scan for a non-empty separator: the first component is the piece
    under construction, the second the pieces that follow it. [skip]
    counts the bytes of a matched separator still to be consumed. *)
Fixpoint split_go (sep : string) (skip : nat) (s : string)
  : string * list string :=
  match s with
  | EmptyString => (EmptyString, [])
  | String c s' =>
      match skip with
      | S k => split_go sep k s'
      | O =>
          if String.prefix sep s then
            let '(p, ps) := split_go sep (String.length sep - 1) s' in
            (EmptyString, p :: ps)
          else
            let '(p, ps) := split_go sep 0 s' in (String c p, ps)
      end
  end.

(** [strings.Split s sep]. *)
Definition Split (s sep : string) : list string :=
  match sep with
  | EmptyString => explode s
  | _ => let '(p, ps) := split_go sep 0 s in p :: ps
  end.

(** [strings.Join elems sep]. *)
Definition Join (elems : list string) (sep : string) : string :=
  String.concat sep elems.

(** Replacement of every non-overlapping instance of a non-empty
    [old], scanning left to right. *)
Fixpoint replace_go (old new : string) (skip : nat) (s : string) : string :=
  match s with
  | EmptyString => EmptyString
  | String c s' =>
      match skip with
      | S k => replace_go old new k s'
      | O =>
          if String.prefix old s
          then new +:+ replace_go old new (String.length old - 1) s'
          else String c (replace_go old new 0 s')
      end
  end.

(** [strings.ReplaceAll s old new]. An empty [old] matches at the
    beginning of the string and after each UTF-8 sequence. *)
Definition ReplaceAll (s old new : string) : string :=
  match old with
  | EmptyString =>
      new +:+ String.concat new (explode s) +:+
      (if String.eqb s EmptyString then EmptyString else new)
  | _ => replace_go old new 0 s
  end.

Definition in_cutset (c : ascii) (cutset : string) : bool :=
  existsb (Ascii.eqb c) (list_ascii_of_string cutset).

(** [strings.TrimLeft], [strings.TrimRight] and [strings.Trim]; the
    program only passes ASCII cutsets, for which Go trims bytewise. *)
Fixpoint TrimLeft (s cutset : string) : string :=
  match s with
  | EmptyString => EmptyString
  | String c s' => if in_cutset c cutset then TrimLeft s' cutset else s
  end.

Definition TrimRight (s cutset : string) : string :=
  rev (TrimLeft (rev s) cutset).

Definition Trim (s cutset : string) : string :=
  TrimRight (TrimLeft s cutset) cutset.

(** White space in the sense of [unicode.IsSpace], as UTF-8: the six
    ASCII characters, U+0085, U+00A0, U+1680, U+2000..U+200A, U+2028,
    U+2029, U+202F, U+205F and U+3000. *)
Definition asciiSpace (c : ascii) : bool :=
  let x := utf8.byte_val c in ((9 <=? x) && (x <=? 13)) || (x =? 32).

(** Number of leading bytes of [s] that encode one white-space rune,
    0 when [s] does not start with one. *)
Definition space_width (s : string) : nat :=
  match s with
  | EmptyString => 0%nat
  | String b0 rest =>
      let x := utf8.byte_val b0 in
      if asciiSpace b0 then 1%nat
      else if x =? 194 then
        match rest with
        | String b1 _ =>
            if (utf8.byte_val b1 =? 133) || (utf8.byte_val b1 =? 160)
            then 2%nat else 0%nat
        | _ => 0%nat
        end
      else match rest with
           | String b1 (String b2 _) =>
               let y := utf8.byte_val b1 in
               let z := utf8.byte_val b2 in
               if ((x =? 225) && (y =? 154) && (z =? 128))
                  || ((x =? 226) && (y =? 128)
                      && (((128 <=? z) && (z <=? 138))
                          || (z =? 168) || (z =? 169) || (z =? 175)))
                  || ((x =? 226) && (y =? 129) && (z =? 159))
                  || ((x =? 227) && (y =? 128) && (z =? 128))
               then 3%nat else 0%nat
           | _ => 0%nat
           end
  end.

(** As [space_width], for the last rune of the string whose reversal
    is [r]. *)
Definition space_width_rev (r : string) : nat :=
  match r with
  | String b0 _ =>
      if asciiSpace b0 then 1%nat
      else match r with
           | String b1 (String b0' rest) =>
               if (space_width (String b0' (String b1 EmptyString)) =? 2)%nat
               then 2%nat
               else match rest with
                    | String a _ =>
                        if (space_width
                              (String a (String b0' (String b1 EmptyString)))
                            =? 3)%nat
                        then 3%nat else 0%nat
                    | _ => 0%nat
                    end
           | _ => 0%nat
           end
  | EmptyString => 0%nat
  end.

Fixpoint trimLeftSpace (fuel : nat) (s : string) : string :=
  match fuel with
  | O => s
  | S k =>
      match space_width s with
      | O => s
      | w => trimLeftSpace k (skipn w s)
      end
  end.

Fixpoint trimLeftSpace_rev (fuel : nat) (r : string) : string :=
  match fuel with
  | O => r
  | S k =>
      match space_width_rev r with
      | O => r
      | w => trimLeftSpace_rev k (skipn w r)
      end
  end.

(** [strings.TrimSpace]. Every step removes at least one byte, so
    [String.length s] steps are enough on either side. *)
Definition TrimSpace (s : string) : string :=
  let t := trimLeftSpace (String.length s) s in
  rev (trimLeftSpace_rev (String.length t) (rev t)).

End GoStrings.

Module strconv.

(** [strconv.Itoa] and [strconv.FormatInt _ 10]. *)
Definition Itoa (n : Z) : string := NilZero.string_of_int (Z.to_int n).
Definition FormatInt10 (n : Z) : string := Itoa n.

End strconv.


(** Go's [error] values are embedded by their message. *)
Definition error : Type := string.

(** The line feed and the double quote, which string literals of this
  file do not contain. *)
Definition nl : string := String "010"%char EmptyString.
Definition dq : string := String "034"%char EmptyString.

(** ** Package [errorpages] *)

Module errorpages.
Import GoStrings.

(** TemplateData holds all the data that can be used in error page
    templates. *)
Record TemplateData := mkTemplateData {
  Code : Z;
  Message : string;
  Description : string;
  ShowDetails : bool;
  Host : string;
  OriginalURI : string;
  ForwardedFor : string;
  RequestID : string;
  NowUnix : Z;
  L10nEnabled : bool;
  L10nScript : string
}.

Record Handler := mkHandler {
  template : string;
  version : string
}.

Definition NewWithTemplate (templateBytes version : string)
  : Handler * option error :=
  ({| template := templateBytes; version := version |}, None).

(** [IsErrorStatus]; [None] would be the panic of [status[0]] on an
    index out of range. *)
Definition IsErrorStatus (status : string) : option bool :=
  if negb (len status =? 3) then Some false
  else c ← at_index status 0;
       Some (Ascii.eqb c "4" || Ascii.eqb c "5").

(** *** Status catalog *)

(** The entries of the two map literals, as written. *)
Definition messageEntries : list (Z * string) :=
    [ (400, "Bad Request"); (401, "Unauthorized");
      (402, "Payment Required"); (403, "Forbidden"); (404, "Not Found");
      (405, "Method Not Allowed"); (406, "Not Acceptable");
      (407, "Proxy Authentication Required"); (408, "Request Timeout");
      (409, "Conflict"); (410, "Gone"); (411, "Length Required");
      (412, "Precondition Failed"); (413, "Payload Too Large");
      (414, "URI Too Long"); (415, "Unsupported Media Type");
      (416, "Range Not Satisfiable"); (417, "Expectation Failed");
      (418, "I'm a teapot"); (421, "Misdirected Request");
      (422, "Unprocessable Entity"); (423, "Locked");
      (424, "Failed Dependency"); (425, "Too Early");
      (426, "Upgrade Required"); (428, "Precondition Required");
      (429, "Too Many Requests");
      (431, "Request Header Fields Too Large");
      (451, "Unavailable For Legal Reasons");
      (500, "Internal Server Error"); (501, "Not Implemented");
      (502, "Bad Gateway"); (503, "Service Unavailable");
      (504, "Gateway Timeout"); (505, "HTTP Version Not Supported");
      (506, "Variant Also Negotiates"); (507, "Insufficient Storage");
      (508, "Loop Detected"); (510, "Not Extended");
      (511, "Network Authentication Required") ].

Definition messages : gmap Z string := list_to_map messageEntries.

Definition getStatusMessage (code : Z) : string :=
  match messages !! code with
  | Some msg => msg
  | None =>
      if (400 <=? code) && (code <? 500) then "Client Error"
      else "Server Error"
  end.

Definition descriptionEntries : list (Z * string) :=
    [ (400, "The request could not be understood by the server due to malformed syntax.");
      (401, "The request requires user authentication.");
      (403, "The server understood the request, but is refusing to fulfill it.");
      (404, "The requested resource could not be found.");
      (405, "The method specified in the request is not allowed for the resource.");
      (408, "The server timed out waiting for the request.");
      (429, "Too many requests have been sent in a given amount of time.");
      (500, "The server encountered an unexpected condition that prevented it from fulfilling the request.");
      (502, "The server received an invalid response from the upstream server.");
      (503, "The server is currently unable to handle the request due to temporary overloading or maintenance.");
      (504, "The server did not receive a timely response from the upstream server.") ].

Definition descriptions : gmap Z string := list_to_map descriptionEntries.

Definition getStatusDescription (code : Z) : string :=
  match descriptions !! code with
  | Some desc => desc
  | None =>
      if (400 <=? code) && (code <? 500)
      then "An error occurred while processing your request."
      else "The server encountered an error while processing your request."
  end.

(** *** HTML escaping *)

Definition escapeTable : list (string * string) :=
  [ ("&", "&amp;"); ("<", "&lt;"); (">", "&gt;");
    (dq, "&quot;"); ("'", "&#39;") ].

Definition htmlEscape (s : string) : string :=
  fold_left (fun result r => ReplaceAll result r.1 r.2) escapeTable s.

(** *** Conditional blocks of the string-replacement engine *)

Definition nestedIf : string := "<!-- {{- if ".

(** The loop that looks for the end marker matching an opening marker;
    [searchPos] and [nestLevel] are the loop variables. The result is
    [endIdx], [-1] when the loop leaves without a match; [None] when
    [fuel] iterations did not finish the loop. *)
Fixpoint findEnd (fuel : nat) (result pend : string)
    (searchPos nestLevel : Z) : option Z :=
  match fuel with
  | O => None
  | S k =>
      if negb (searchPos <? len result) then Some (-1)
      else
        let nextIfIdx := Index (sliceFrom result searchPos) nestedIf in
        let nextEndIdx := Index (sliceFrom result searchPos) pend in
        if negb (nextEndIdx =? -1)
           && ((nextIfIdx =? -1) || (nextEndIdx <? nextIfIdx))
        then
          let checkPos := searchPos + nextEndIdx in
          let isChained :=
            (0 <? nextEndIdx)
            && (checkPos + len pend <? len result)
            && HasPrefix
                 (slice result (checkPos + len pend)
                    (Z.min (checkPos + len pend + 10) (len result)))
                 "{{ if " in
          if negb isChained then
            if nestLevel - 1 =? 0 then Some (searchPos + nextEndIdx)
            else findEnd k result pend
                   (searchPos + (nextEndIdx + len pend)) (nestLevel - 1)
          else findEnd k result pend
                 (searchPos + (nextEndIdx + len pend)) nestLevel
        else if negb (nextIfIdx =? -1) then
          findEnd k result pend
            (searchPos + (nextIfIdx + len nestedIf)) (nestLevel + 1)
        else Some (-1)
  end.

(** The comment styles tried by [processIfBlock], in order. *)
Definition patterns (condition : string) : list (string * string) :=
  [ ("<!-- {{- if " +:+ condition +:+ " -}} -->", "<!-- {{- end -}} -->");
    ("<!-- {{ if " +:+ condition +:+ " }} -->", "<!-- {{ end }} -->");
    ("<!-- {{- if " +:+ condition +:+ " }} -->", "<!-- {{ end }} -->");
    ("<!-- {{ if " +:+ condition +:+ " -}} -->", "<!-- {{- end -}} -->");
    ("<!-- {{if " +:+ condition +:+ "}} -->", "<!-- {{end}} -->");
    ("<!-- {{- if " +:+ condition +:+ " -}}-->", "<!--{{- end -}}-->") ].

(** The [for _, p := range patterns] loop; [again] is the recursive
    call of [processIfBlock] on the rewritten text. *)
Fixpoint scanPatterns (again : string -> option string)
    (result : string) (show : bool) (ps : list (string * string))
  : option string :=
  match ps with
  | [] => Some result
  | (pstart, pend) :: ps' =>
      let startIdx := Index result pstart in
      if startIdx =? -1 then scanPatterns again result show ps'
      else
        match findEnd (S (String.length result)) result pend
                (startIdx + len pstart) 1 with
        | None => None
        | Some endIdx =>
            if endIdx =? -1 then scanPatterns again result show ps'
            else if show then
              again (sliceTo result startIdx
                     +:+ slice result (startIdx + len pstart) endIdx
                     +:+ sliceFrom result (endIdx + len pend))
            else
              again (sliceTo result startIdx
                     +:+ sliceFrom result (endIdx + len pend))
        end
  end.

Fixpoint processIfBlock_fuel (fuel : nat) (template condition : string)
    (show : bool) : option string :=
  match fuel with
  | O => None
  | S k =>
      scanPatterns (fun r => processIfBlock_fuel k r condition show)
        template show (patterns condition)
  end.

(** [processIfBlock]: every recursive call works on a strictly shorter
    text, so [S (String.length template)] calls are enough. *)
Definition processIfBlock (template condition : string) (show : bool)
  : string :=
  default template
    (processIfBlock_fuel (S (String.length template)) template condition show).

Definition refreshStart : string :=
  "<!-- {{ if or (eq code 408) (eq code 425) (eq code 429) (eq code 500) (eq code 502) (eq code 503) (eq code 504) }} -->".
Definition refreshEnd : string := "<!-- {{ end }} -->".

Definition processComplexRefreshConditional (template : string)
    (show : bool) : string :=
  let result := template in
  let startIdx := Index result refreshStart in
  if startIdx =? -1 then result
  else
    let endIdx := Index (sliceFrom result startIdx) refreshEnd in
    if endIdx =? -1 then result
    else
      let endIdx := endIdx + startIdx in
      if show then
        sliceTo result startIdx
        +:+ slice result (startIdx + len refreshStart) endIdx
        +:+ sliceFrom result (endIdx + len refreshEnd)
      else
        sliceTo result startIdx +:+ sliceFrom result (endIdx + len refreshEnd).

Definition shouldAutoRefresh (code : Z) : bool :=
  (code =? 408) || (code =? 425) || (code =? 429) || (code =? 500)
  || (code =? 502) || (code =? 503) || (code =? 504).

Definition processConditionals (template : string) (data : TemplateData)
  : string :=
  let result := template in
  let result :=
    processComplexRefreshConditional result (shouldAutoRefresh (Code data)) in
  let result := processIfBlock result "show_details" (ShowDetails data) in
  let result := processIfBlock result "l10n_enabled" (L10nEnabled data) in
  result.

(** *** Placeholder substitution *)

(** The entries of the [replacements] map, in the order of the map
    literal. *)
Definition replacements (data : TemplateData) : list (string * string) :=
  [ ("{{ code }}", strconv.Itoa (Code data));
    ("{{ message }}", Message data);
    ("{{ description }}", Description data);
    ("{{ message | escape }}", htmlEscape (Message data));
    ("{{ description | escape }}", htmlEscape (Description data));
    ("{{ host }}", Host data);
    ("{{ original_uri }}", OriginalURI data);
    ("{{ forwarded_for }}", ForwardedFor data);
    ("{{ request_id }}", RequestID data);
    ("{{ nowUnix }}", strconv.FormatInt10 (NowUnix data));
    ("{{ l10nScript }}", L10nScript data) ].

(** [for placeholder, value := range replacements] ranges over a Go
    map, whose iteration order the language leaves unspecified. A
    [MapOrder] lists the positions of the entries in the order in
    which one execution of the loop visits them. *)
Definition MapOrder : Type := list nat.

Definition validOrder (o : MapOrder) (n : nat) : Prop :=
  Permutation o (seq 0 n).

Definition sourceOrder : MapOrder := seq 0 11.

Definition rangeMap {A : Type} (o : MapOrder) (entries : list A) : list A :=
  omap (fun i => entries !! i) o.

Definition renderTemplate (o : MapOrder) (h : Handler) (template : string)
    (data : TemplateData) : string :=
  let result := processConditionals template data in
  fold_left (fun result kv => ReplaceAll result kv.1 kv.2)
    (rangeMap o (replacements data)) result.

(** *** Cleanup of the rendered page *)

Definition emptyValueCell : string :=
  "<td class=" +:+ dq +:+ "value" +:+ dq +:+ "></td>".

(** The look-ahead loop [for j := i + 1; j < len(lines) && j < i+5]. *)
Fixpoint hasEmptyValue (n : nat) (next : list string) : bool :=
  match n, next with
  | S k, l :: rest =>
      let nextLine := TrimSpace l in
      if Contains nextLine emptyValueCell then true
      else if Contains nextLine "</tr>" then false
      else hasEmptyValue k rest
  | _, _ => false
  end.

(** The loop over the lines; [skipUntilEndTr] is its state and the
    result the lines appended to [cleaned]. *)
Fixpoint cleanLines (skipUntilEndTr : bool) (lines : list string)
  : list string :=
  match lines with
  | [] => []
  | l :: rest =>
      let line := TrimSpace l in
      if Contains line "<tr>" && hasEmptyValue 4 rest then
        cleanLines true rest
      else if skipUntilEndTr then
        cleanLines (negb (Contains line "</tr>")) rest
      else l :: cleanLines false rest
  end.

Definition leftoverMarkers : list string :=
  [ "<!-- {{- if show_details -}} -->";
    "<!-- {{- if host -}} -->";
    "<!-- {{- end }}{{ if original_uri -}} -->";
    "<!-- {{- end }}{{ if forwarded_for -}} -->";
    "<!-- {{- end }}{{ if request_id -}} -->";
    "<!-- {{- end -}} -->";
    "<!-- {{- if l10n_enabled -}} -->" ].

Definition cleanupEmptyRows (html : string) : string :=
  let result :=
    fold_left (fun result m => ReplaceAll result m "") leftoverMarkers html in
  Join (cleanLines false (Split result nl)) nl.

Definition setNowUnix (data : TemplateData) (v : Z) : TemplateData :=
  mkTemplateData (Code data) (Message data) (Description data)
    (ShowDetails data) (Host data) (OriginalURI data) (ForwardedFor data)
    (RequestID data) v (L10nEnabled data) (L10nScript data).

Definition setMessage (data : TemplateData) (v : string) : TemplateData :=
  mkTemplateData (Code data) v (Description data)
    (ShowDetails data) (Host data) (OriginalURI data) (ForwardedFor data)
    (RequestID data) (NowUnix data) (L10nEnabled data) (L10nScript data).

Definition setDescription (data : TemplateData) (v : string)
  : TemplateData :=
  mkTemplateData (Code data) (Message data) v
    (ShowDetails data) (Host data) (OriginalURI data) (ForwardedFor data)
    (RequestID data) (NowUnix data) (L10nEnabled data) (L10nScript data).

(** The three assignments at the head of [RenderErrorPage]; [now] is
    the value of [time.Now().Unix()]. *)
Definition applyDefaults (now : Z) (data : TemplateData) : TemplateData :=
  let data := if NowUnix data =? 0 then setNowUnix data now else data in
  let data :=
    if String.eqb (Message data) ""
    then setMessage data (getStatusMessage (Code data)) else data in
  let data :=
    if String.eqb (Description data) ""
    then setDescription data (getStatusDescription (Code data)) else data in
  data.

(** [RenderErrorPage]. [o] is the order in which the substitution
    loop visits its map. The function writes the defaults into [data];
    the updated record is returned with the page and the error. *)
Definition RenderErrorPage (now : Z) (o : MapOrder) (h : Handler)
    (data : TemplateData) : TemplateData * (string * option error) :=
  let data := applyDefaults now data in
  let result := renderTemplate o h (template h) data in
  let result := cleanupEmptyRows result in
  (data, (result, None)).

End errorpages.

(** ** Package [errorpages], [text/template] variant

  The second errorpages source hands the template to Go's
  [text/template] after a preprocessing pass. Its [IsErrorStatus],
  [getStatusMessage] and [getStatusDescription] are the same text as
  above; the preprocessing pass is embedded here. *)

Module errorpages_tmpl.
Import GoStrings.

Definition controlKeywords : list string :=
  [ "if "; "else if "; "else"; "end"; "range "; "with "; "block ";
    "define "; "template " ].

Definition isControlKeyword (action : string) : bool :=
  existsb
    (fun kw => String.eqb action (TrimSpace kw) || HasPrefix action kw)
    controlKeywords.

(** The loop of [containsOnlyDirectives] over [remaining] and [found];
    [None] when [fuel] iterations did not finish it. *)
Fixpoint directivesLoop (fuel : nat) (remaining : string) (found : bool)
  : option bool :=
  match fuel with
  | O => None
  | S k =>
      if negb (0 <? len remaining) then Some found
      else
        let idx := Index remaining "{{" in
        if idx =? -1 then
          Some (found && String.eqb (TrimSpace remaining) "")
        else if negb (String.eqb (TrimSpace (sliceTo remaining idx)) "")
        then Some false
        else
          let endIdx := Index (sliceFrom remaining idx) "}}" in
          if endIdx =? -1 then Some false
          else
            let action := slice remaining (idx + 2) (idx + endIdx) in
            let action := Trim action "- " in
            let action := TrimSpace action in
            if negb (isControlKeyword action) then Some false
            else directivesLoop k
                   (sliceFrom remaining (idx + endIdx + 2)) true
  end.

(** [containsOnlyDirectives]: each iteration of the loop drops at
    least the two bytes of a closing delimiter, so
    [S (String.length s)] iterations are enough. *)
Definition containsOnlyDirectives (s : string) : bool :=
  let s := TrimSpace s in
  if String.eqb s "" then false
  else default false (directivesLoop (S (String.length s)) s false).

Definition ensureOuterTrimMarkers (s : string) : string :=
  let s :=
    if HasPrefix s "{{" && negb (HasPrefix s "{{-")
    then "{{- " +:+ TrimLeft (sliceFrom s 2) " "
    else s in
  if HasSuffix s "}}" && negb (HasSuffix s "-}}")
  then TrimRight (sliceTo s (len s - 2)) " " +:+ " -}}"
  else s.

(** What one of the three [if] blocks of the loop body assigns to
    [lines[i]], if it fires. *)
Definition unwrap (inner : string) : option string :=
  if containsOnlyDirectives inner then Some (ensureOuterTrimMarkers inner)
  else None.

Definition htmlWrapper (trimmed : string) : option string :=
  if HasPrefix trimmed "<!--" && HasSuffix trimmed "-->" then
    unwrap (TrimSpace (TrimSuffix (TrimPrefix trimmed "<!--") "-->"))
  else None.

Definition cssWrapper (trimmed : string) : option string :=
  if HasPrefix trimmed "/*" && HasSuffix trimmed "*/" then
    unwrap (TrimSpace (TrimSuffix (TrimPrefix trimmed "/*") "*/"))
  else None.

Definition jsWrapper (trimmed : string) : option string :=
  if HasPrefix trimmed "//" && negb (HasPrefix trimmed "///") then
    unwrap (TrimSpace (TrimPrefix trimmed "//"))
  else None.

(** The body of the loop over the lines: the new value of [lines[i]]. *)
Definition preprocessLine (line : string) : string :=
  let trimmed := TrimSpace line in
  match htmlWrapper trimmed with
  | Some l => l
  | None =>
      match cssWrapper trimmed with
      | Some l => l
      | None =>
          match jsWrapper trimmed with
          | Some l => l
          | None => line
          end
      end
  end.

Definition preprocessTemplate (raw : string) : string :=
  Join (map preprocessLine (Split raw nl)) nl.

End errorpages_tmpl.

(** ** Package [config] *)

Module config.
Import GoStrings.

Record Config := mkConfig {
  Theme : string;
  ShowDetails : bool
}.

(** The body of the loop over the lines, on the configuration built so
    far. *)
Definition parseLine (cfg : Config) (line : string) : Config :=
  let line := TrimSpace line in
  if HasPrefix line "#" || String.eqb line "" then cfg
  else
    let cfg :=
      if HasPrefix line "theme:" then
        mkConfig (TrimSpace (TrimPrefix line "theme:")) (ShowDetails cfg)
      else cfg in
    if HasPrefix line "show_details:" then
      mkConfig (Theme cfg)
        (String.eqb (TrimSpace (TrimPrefix line "show_details:")) "true")
    else cfg.

(** [Parse]: the returned pointer is [Some] when it is not nil. *)
Definition Parse (yamlContent : string) : option Config * option error :=
  let cfg := mkConfig "cats" true in
  let lines := Split yamlContent nl in
  (Some (fold_left parseLine lines cfg), None).

End config.

(** ** Package [main]: the HTTP context *)

Module plugin.
Import GoStrings.

Inductive Action := ActionContinue | ActionPause.

Inductive LogLevel := Debug | Info | Warn | Error.

(** The proxy host as the SDK calls see it: the header maps and the
    buffered response body of the stream, the log, and whether the
    host accepts a replacement of the response body (a hostcall that
    the host may refuse, upon which the SDK returns an error). *)
Record Host := mkHost {
  requestHeaders : list (string * string);
  responseHeaders : list (string * string);
  responseBody : string;
  acceptsBodyReplace : bool;
  logged : list (LogLevel * string)
}.

Definition lookupHeader (hs : list (string * string)) (key : string)
  : string + error :=
  match List.find (fun kv => String.eqb kv.1 key) hs with
  | Some kv => inl kv.2
  | None => inr "error status returned by host: not found"
  end.

Definition GetHttpRequestHeader (key : string) (host : Host)
  : string + error := lookupHeader (requestHeaders host) key.

Definition GetHttpResponseHeader (key : string) (host : Host)
  : string + error := lookupHeader (responseHeaders host) key.

Definition setResponseHeaders (host : Host) (hs : list (string * string))
  : Host :=
  mkHost (requestHeaders host) hs (responseBody host)
    (acceptsBodyReplace host) (logged host).

Definition RemoveHttpResponseHeader (key : string) (host : Host) : Host :=
  setResponseHeaders host
    (List.filter (fun kv => negb (String.eqb kv.1 key)) (responseHeaders host)).

Definition AddHttpResponseHeader (key value : string) (host : Host) : Host :=
  setResponseHeaders host (responseHeaders host ++ [(key, value)]).

Definition ReplaceHttpResponseBody (data : string) (host : Host)
  : Host * option error :=
  if acceptsBodyReplace host then
    (mkHost (requestHeaders host) (responseHeaders host) data
       (acceptsBodyReplace host) (logged host), None)
  else (host, Some "error status returned by host: bad argument").

Definition log (lvl : LogLevel) (msg : string) (host : Host) : Host :=
  mkHost (requestHeaders host) (responseHeaders host) (responseBody host)
    (acceptsBodyReplace host) (logged host ++ [(lvl, msg)]).

Record httpContext := mkHttpContext {
  shouldReplaceBody : bool;
  statusCode : string;
  host : string;
  originalURI : string;
  forwardedFor : string;
  requestID : string
}.

(** [NewHttpContext]: all fields at their zero values. *)
Definition NewHttpContext : httpContext :=
  mkHttpContext false "" "" "" "" "".

(** The process-wide values set by [OnPluginStart], and what one call
    of [OnHttpResponseBody] takes from its environment: the clock and
    the order in which the substitution loop visits its map. *)
Record Globals := mkGlobals {
  errorPageHandler : errorpages.Handler;
  pluginConfig : config.Config;
  clock : Z;
  mapOrder : errorpages.MapOrder
}.

Definition OnHttpRequestHeaders (ctx : httpContext) (numHeaders : Z)
    (endOfStream : bool) (h : Host) : Action * httpContext :=
  let host' :=
    match GetHttpRequestHeader ":authority" h with
    | inl v => v
    | inr _ =>
        match GetHttpRequestHeader "host" h with
        | inl v => v
        | inr _ => host ctx
        end
    end in
  let path' :=
    match GetHttpRequestHeader ":path" h with
    | inl v => v | inr _ => originalURI ctx end in
  let xff' :=
    match GetHttpRequestHeader "x-forwarded-for" h with
    | inl v => v | inr _ => forwardedFor ctx end in
  let reqID' :=
    match GetHttpRequestHeader "x-request-id" h with
    | inl v => v | inr _ => requestID ctx end in
  (ActionContinue,
   mkHttpContext (shouldReplaceBody ctx) (statusCode ctx)
     host' path' xff' reqID').

(** [OnHttpResponseHeaders]; [None] would be a panic inside
    [IsErrorStatus]. *)
Definition OnHttpResponseHeaders (ctx : httpContext) (numHeaders : Z)
    (endOfStream : bool) (h : Host)
  : option (Action * httpContext * Host) :=
  match GetHttpResponseHeader ":status" h with
  | inr err =>
      Some (ActionContinue, ctx,
            log Warn ("failed to get status code: " +:+ err) h)
  | inl status =>
      let h := log Debug ("response status code: " +:+ status) h in
      isErr ← errorpages.IsErrorStatus status;
      if isErr : bool then
        let ctx :=
          mkHttpContext true status (host ctx) (originalURI ctx)
            (forwardedFor ctx) (requestID ctx) in
        let h := log Info ("intercepting error response: " +:+ status) h in
        let h := RemoveHttpResponseHeader "content-length" h in
        let h := RemoveHttpResponseHeader "content-encoding" h in
        let h := RemoveHttpResponseHeader "content-type" h in
        let h := AddHttpResponseHeader "content-type"
                   "text/html; charset=utf-8" h in
        Some (ActionContinue, ctx, h)
      else Some (ActionContinue, ctx, h)
  end.

(** Go's [int] on the wasm target has 64 bits. *)
Definition wrapInt (z : Z) : Z :=
  (z + 2 ^ 63) mod 2 ^ 64 - 2 ^ 63.

(** The digit loop of [OnHttpResponseBody]: bytes that are not decimal
    digits are skipped. *)
Definition parseStatusCode (status : string) : Z :=
  fold_left
    (fun statusCode c =>
       if (utf8.byte_val "0" <=? utf8.byte_val c)
          && (utf8.byte_val c <=? utf8.byte_val "9")
       then wrapInt (wrapInt (statusCode * 10)
                     + (utf8.byte_val c - utf8.byte_val "0"))
       else statusCode)
    (list_ascii_of_string status) 0.

Definition OnHttpResponseBody (g : Globals) (ctx : httpContext)
    (bodySize : Z) (endOfStream : bool) (h : Host) : Action * Host :=
  if negb (shouldReplaceBody ctx) then (ActionContinue, h)
  else if negb endOfStream then (ActionPause, h)
  else
    let statusCode' := parseStatusCode (statusCode ctx) in
    let templateData :=
      errorpages.mkTemplateData statusCode' "" ""
        (config.ShowDetails (pluginConfig g)) (host ctx) (originalURI ctx)
        (forwardedFor ctx) (requestID ctx) 0 false "" in
    match errorpages.RenderErrorPage (clock g) (mapOrder g)
            (errorPageHandler g) templateData with
    | (_, (_, Some err)) =>
        (ActionContinue,
         log Error ("failed to render error page: " +:+ err) h)
    | (_, (errorPage, None)) =>
        match ReplaceHttpResponseBody errorPage h with
        | (h, Some err) =>
            (ActionContinue,
             log Error ("failed to replace response body: " +:+ err) h)
        | (h, None) =>
            (ActionContinue,
             log Debug
               ("replaced error page for status: " +:+ statusCode ctx) h)
        end
    end.

(** The host delivers the body of one response as a sequence of
    chunks, each flagged with [endOfStream]; [deliver] runs the
    handler on them in order and collects the returned actions. *)
Fixpoint deliver (g : Globals) (ctx : httpContext)
    (chunks : list (Z * bool)) (h : Host) : list Action * Host :=
  match chunks with
  | [] => ([], h)
  | (bodySize, endOfStream) :: rest =>
      let '(a, h) := OnHttpResponseBody g ctx bodySize endOfStream h in
      let '(acts, h) := deliver g ctx rest h in
      (a :: acts, h)
  end.

End plugin.

(** ** Package [templates] *)

Module templates.
Import GoStrings.

(** What [fs.ReadDir] reports for one entry of a directory. *)
Record DirEntry := mkDirEntry {
  Name : string;
  IsDir : bool
}.

(** The embedded file system [TemplatesFS], through the two operations
    that the package calls on it: [ReadFile] on a name and [fs.ReadDir]
    on the root directory. Which files it holds is fixed when the
    program is built, so it is a parameter here. *)
Record FS := mkFS {
  ReadFile : string -> string + error;
  ReadDir : list DirEntry + error
}.

(** The error of [GetTemplate]: [fmt.Errorf] wraps the cause together
    with the theme that was asked for. *)
Inductive TemplateError :=
| NotFound (theme : string) (cause : error).

Definition GetTemplate (fsys : FS) (theme : string)
  : string + TemplateError :=
  let filename := theme in
  let filename :=
    if (len filename <? 5)
       || negb (String.eqb (sliceFrom filename (len filename - 5)) ".html")
    then filename +:+ ".html"
    else filename in
  match ReadFile fsys filename with
  | inr err => inr (NotFound theme err)
  | inl data => inl data
  end.

(** The loop of [GetTemplateNames] over the directory entries. *)
Fixpoint collectNames (entries : list DirEntry) : list string :=
  match entries with
  | [] => []
  | e :: rest =>
      if negb (IsDir e) && (5 <? len (Name e))
         && String.eqb (sliceFrom (Name e) (len (Name e) - 5)) ".html"
      then sliceTo (Name e) (len (Name e) - 5) :: collectNames rest
      else collectNames rest
  end.

Definition GetTemplateNames (fsys : FS) : list string + error :=
  match ReadDir fsys with
  | inr err => inr err
  | inl entries => inl (collectNames entries)
  end.

End templates.

(** ** Package [main]: start of the plugin *)

Module startup.

Inductive OnPluginStartStatus :=
| OnPluginStartStatusOK
| OnPluginStartStatusFailed.

(** The log calls of [OnPluginStart], each with the arguments of its
    format string. *)
Inductive StartLog :=
| LogInitialized (version : string)
| LogParseConfigFailed (err : error)
| LogThemeNotFound (theme : string)
| LogFallbackFailed (err : templates.TemplateError)
| LogParseTemplateFailed (err : error)
| LogTemplateLoaded (theme : string) (show_details : bool).

(** The package-level variables that [OnPluginStart] assigns, [None]
    for a nil pointer, with the returned status and the log. *)
Record Started := mkStarted {
  status : OnPluginStartStatus;
  pluginConfig : option config.Config;
  errorPageHandler : option errorpages.Handler;
  logged : list StartLog
}.

(** The last part of [OnPluginStart]: the handler is built from the
    selected template. *)
Definition initHandler (version : string) (cfg : config.Config)
    (templateBytes : string) (logs : list StartLog) : Started :=
  match errorpages.NewWithTemplate templateBytes version with
  | (_, Some err) =>
      mkStarted OnPluginStartStatusFailed (Some cfg) None
        (logs ++ [LogParseTemplateFailed err])
  | (h, None) =>
      mkStarted OnPluginStartStatusOK (Some cfg) (Some h)
        (logs ++ [LogTemplateLoaded (config.Theme cfg) (config.ShowDetails cfg)])
  end.

(** [OnPluginStart] on the embedded [config.yaml] and [TemplatesFS].
    The outer [None] would be the panic of reading [pluginConfig.Theme]
    through a nil pointer. *)
Definition OnPluginStart (version configYAML : string) (fsys : templates.FS)
  : option Started :=
  let logs := [LogInitialized version] in
  match config.Parse configYAML with
  | (cfg, Some err) =>
      Some (mkStarted OnPluginStartStatusFailed cfg None
              (logs ++ [LogParseConfigFailed err]))
  | (None, None) => None
  | (Some cfg, None) =>
      match templates.GetTemplate fsys (config.Theme cfg) with
      | inl templateBytes => Some (initHandler version cfg templateBytes logs)
      | inr _ =>
          let logs := logs ++ [LogThemeNotFound (config.Theme cfg)] in
          match templates.GetTemplate fsys "app-down" with
          | inr err =>
              Some (mkStarted OnPluginStartStatusFailed (Some cfg) None
                      (logs ++ [LogFallbackFailed err]))
          | inl templateBytes =>
              let cfg := config.mkConfig "app-down" (config.ShowDetails cfg) in
              Some (initHandler version cfg templateBytes logs)
          end
      end
  end.

End startup.

(** ** Vocabulary of the statements *)

(** [occurs sub s]: [sub] is a substring of [s]. *)
Definition occurs (sub s : string) : Prop :=
  exists a b, s = a +:+ sub +:+ b.

Module spec.
Import GoStrings.

(** A status text made of three decimal digits. *)
Definition isDigit (c : ascii) : bool :=
  (48 <=? utf8.byte_val c) && (utf8.byte_val c <=? 57).

Definition threeDecimalDigits (s : string) : bool :=
  match s with
  | String a (String b (String c EmptyString)) =>
      isDigit a && isDigit b && isDigit c
  | _ => false
  end.


(** The codes with a description of their own. *)
Definition describedCodes : list Z :=
  [400; 401; 403; 404; 405; 408; 429; 500; 502; 503; 504].

(** Escaping of one byte, all five rules at once. *)
Definition escapeByte (c : ascii) : string :=
  if Ascii.eqb c "&" then "&amp;"
  else if Ascii.eqb c "<" then "&lt;"
  else if Ascii.eqb c ">" then "&gt;"
  else if Ascii.eqb c "034" then "&quot;"
  else if Ascii.eqb c "'" then "&#39;"
  else String c EmptyString.

(** Bytewise substitution: every byte [c] of [s] becomes [f c]. *)
Fixpoint substBytes (f : ascii -> string) (s : string) : string :=
  match s with
  | EmptyString => EmptyString
  | String c s' => f c +:+ substBytes f s'
  end.

Definition isMarkup (c : ascii) : bool :=
  Ascii.eqb c "<" || Ascii.eqb c ">" || Ascii.eqb c "034" || Ascii.eqb c "'".

Fixpoint allBytes (P : ascii -> bool) (s : string) : bool :=
  match s with
  | EmptyString => true
  | String c s' => P c && allBytes P s'
  end.

(** The configuration lines that assign a field, and the value they
    assign. *)
Definition activeLine (l : string) : bool :=
  let line := TrimSpace l in
  negb (HasPrefix line "#" || String.eqb line "").

Definition assigns (key l : string) : bool :=
  activeLine l && HasPrefix (TrimSpace l) key.

Definition assignedValue (key l : string) : string :=
  TrimSpace (TrimPrefix (TrimSpace l) key).

(** The last line of [lines] that assigns [key]. *)
Definition lastAssignment (key : string) (lines : list string)
  : option string :=
  last (List.filter (assigns key) lines).

(** A document without template actions: no [{{] that is followed,
    anywhere later, by [}}]. *)
Definition hasAction (doc : string) : Prop :=
  exists a b c, doc = a +:+ "{{" +:+ b +:+ "}}" +:+ c.

(** The page that [OnHttpResponseBody] renders for a request context. *)
Definition errorPage (g : plugin.Globals) (ctx : plugin.httpContext)
  : string :=
  (errorpages.RenderErrorPage (plugin.clock g) (plugin.mapOrder g)
     (plugin.errorPageHandler g)
     (errorpages.mkTemplateData
        (plugin.parseStatusCode (plugin.statusCode ctx)) "" ""
        (config.ShowDetails (plugin.pluginConfig g))
        (plugin.host ctx) (plugin.originalURI ctx) (plugin.forwardedFor ctx)
        (plugin.requestID ctx) 0 false "")).2.1.

(** An iteration order of the [replacements] map that visits the
    request-id entry first; the other entries follow in source order. *)
Definition requestIdFirst : errorpages.MapOrder :=
  [8; 0; 1; 2; 3; 4; 5; 6; 7; 9; 10]%nat.

(** A body that arrives in chunks of which none signals the end of the
    stream. *)
Definition notLast (chunks : list (Z * bool)) : Prop :=
  Forall (fun c => c.2 = false) chunks.

(** The five bytes that [htmlEscape] rewrites. *)
Definition isSpecial (c : ascii) : bool := Ascii.eqb c "&" || isMarkup c.

(** The bytes of [s] that satisfy [P], in order. *)
Fixpoint keepBytes (P : ascii -> bool) (s : string) : string :=
  match s with
  | EmptyString => EmptyString
  | String c s' => if P c then String c (keepBytes P s') else keepBytes P s'
  end.

(** The end markers that the conditional engine looks for. *)
Definition endMarkers : list string :=
  [ "<!-- {{- end -}} -->"; "<!-- {{ end }} -->"; "<!-- {{end}} -->";
    "<!--{{- end -}}-->" ].


(** A file system in which every file that the root directory lists can
    be read. *)
Definition listedFilesReadable (fsys : templates.FS) : Prop :=
  forall entries e,
    templates.ReadDir fsys = inl entries ->
    In e entries -> templates.IsDir e = false ->
    exists data, templates.ReadFile fsys (templates.Name e) = inl data.

(** A file system that holds the given files, and nothing else, in its
    root directory. *)
Definition flatFS (files : list (string * string)) : templates.FS :=
  templates.mkFS
    (fun name =>
       match List.find (fun f => String.eqb f.1 name) files with
       | Some f => inl f.2
       | None => inr "file does not exist"
       end)
    (inl (map (fun f => templates.mkDirEntry f.1 false) files)).

(** One HTTP exchange as the host drives it on a fresh context: the
    request headers, the response headers, then the body chunks. The
    request phase reads the request headers of [h]. *)
Definition exchange (g : plugin.Globals) (chunks : list (Z * bool))
    (h : plugin.Host)
  : option (list plugin.Action * plugin.httpContext * plugin.Host) :=
  let '(a1, ctx1) :=
    plugin.OnHttpRequestHeaders plugin.NewHttpContext 0 false h in
  match plugin.OnHttpResponseHeaders ctx1 0 false h with
  | None => None
  | Some (a2, ctx2, h2) =>
      let '(acts, h3) := plugin.deliver g ctx2 chunks h2 in
      Some (a1 :: a2 :: acts, ctx2, h3)
  end.

(** The headers that the plugin replaces on an intercepted response. *)
Definition replacedHeader (key : string) : bool :=
  String.eqb key "content-length" || String.eqb key "content-encoding"
  || String.eqb key "content-type".

(** A string that holds no line feed: one line of a page. *)
Definition oneLine (l : string) : Prop := ~ occurs nl l.

(** [sub] is found in the line [l] once its white space is trimmed, as
    the loops over lines test it. *)
Definition lineHas (sub l : string) : bool :=
  GoStrings.Contains (GoStrings.TrimSpace l) sub.

End spec.

(* ================================================================== *)
(** * Part II: properties                                              *)
(* ================================================================== *)

#[local] Arguments String.append : simpl nomatch.

(** ** Facts about byte strings *)

Section StringFacts.
Import GoStrings.

Lemma str_app_nil_r (s : string) : s +:+ "" = s.
Proof. induction s as [|c s IH]; simpl; [reflexivity | now rewrite IH]. Qed.

Lemma str_app_assoc (s t u : string) : (s +:+ t) +:+ u = s +:+ (t +:+ u).
Proof. induction s as [|c s IH]; simpl; [reflexivity | now rewrite IH]. Qed.

Lemma str_length_app (s t : string) :
  String.length (s +:+ t) = (String.length s + String.length t)%nat.
Proof. induction s as [|c s IH]; simpl; [reflexivity | now rewrite IH]. Qed.

Lemma str_app_inv_head (s t u : string) : s +:+ t = s +:+ u -> t = u.
Proof.
  induction s as [|c s IH]; simpl; intros H; [exact H|].
  injection H as H. now apply IH.
Qed.

Lemma str_firstn_skipn (n : nat) (s : string) : firstn n s +:+ skipn n s = s.
Proof.
  revert s; induction n as [|n IH]; intros [|c s]; simpl; try reflexivity.
  now rewrite IH.
Qed.

Lemma str_length_skipn (n : nat) (s : string) :
  String.length (skipn n s) = (String.length s - n)%nat.
Proof.
  revert s; induction n as [|n IH]; intros [|c s]; simpl; try reflexivity.
  apply IH.
Qed.

Lemma str_length_firstn (n : nat) (s : string) :
  String.length (firstn n s) = Nat.min n (String.length s).
Proof.
  revert s; induction n as [|n IH]; intros [|c s]; simpl; try reflexivity.
  now rewrite IH.
Qed.

Lemma str_skipn_app_length (s t : string) : skipn (String.length s) (s +:+ t) = t.
Proof. induction s as [|c s IH]; simpl; [reflexivity | exact IH]. Qed.


Lemma str_skipn_add (n m : nat) (s : string) :
  skipn (n + m) s = skipn m (skipn n s).
Proof.
  revert s; induction n as [|n IH]; intros s; simpl; [reflexivity|].
  destruct s as [|c s]; [now destruct m | apply IH].
Qed.

Lemma str_skipn_all (n : nat) (s : string) :
  (String.length s <= n)%nat -> skipn n s = "".
Proof.
  revert s; induction n as [|n IH]; intros [|c s]; simpl; intros H;
    try reflexivity; try lia.
  apply IH; lia.
Qed.

Lemma str_prefix_app (p s : string) : String.prefix p (p +:+ s) = true.
Proof.
  induction p as [|c p IH]; simpl; [now destruct s|].
  destruct (ascii_dec c c); [exact IH | congruence].
Qed.

Lemma str_prefix_split (p s : string) :
  String.prefix p s = true -> s = p +:+ skipn (String.length p) s.
Proof.
  revert s; induction p as [|c p IH]; intros s H; simpl; [reflexivity|].
  destruct s as [|d s]; simpl in H; [discriminate|].
  destruct (ascii_dec c d); [subst d | discriminate].
  now rewrite <- IH.
Qed.

Lemma str_prefix_length (p s : string) :
  String.prefix p s = true -> (String.length p <= String.length s)%nat.
Proof.
  intros H. rewrite (str_prefix_split p s H), str_length_app. lia.
Qed.

Lemma str_prefix_nil (s : string) : String.prefix "" s = true.
Proof. now destruct s. Qed.

Lemma occurs_refl (s : string) : occurs s s.
Proof. exists "", "". simpl. now rewrite str_app_nil_r. Qed.

Lemma occurs_trans (a b c : string) : occurs a b -> occurs b c -> occurs a c.
Proof.
  intros (x & y & ->) (u & v & ->). exists (u +:+ x), (y +:+ v).
  now rewrite !str_app_assoc.
Qed.

Lemma occurs_skipn (n : nat) (s : string) : occurs (skipn n s) s.
Proof.
  exists (firstn n s), "". now rewrite str_app_nil_r, str_firstn_skipn.
Qed.

Lemma occurs_firstn (n : nat) (s : string) : occurs (firstn n s) s.
Proof. exists "", (skipn n s). simpl. now rewrite str_firstn_skipn. Qed.

Lemma occurs_app_l (a b : string) : occurs a (a +:+ b).
Proof. now exists "", b. Qed.

Lemma occurs_app_r (a b : string) : occurs b (a +:+ b).
Proof. exists a, "". now rewrite str_app_nil_r. Qed.

Lemma occurs_cons (c : ascii) (sub s : string) :
  occurs sub s -> occurs sub (String c s).
Proof. intros (a & b & ->). now exists (String c a), b. Qed.

(** *** [strings.Index] *)

Lemma index_nat_eq (s sub : string) :
  index_nat s sub =
  if String.prefix sub s then Some O
  else match s with
       | EmptyString => None
       | String _ s' => S <$> index_nat s' sub
       end.
Proof. destruct s; reflexivity. Qed.

Lemma index_nat_Some (s sub : string) (n : nat) :
  index_nat s sub = Some n ->
  String.prefix sub (skipn n s) = true /\ (n <= String.length s)%nat.
Proof.
  revert n; induction s as [|c s IH]; intros n; rewrite index_nat_eq.
  - destruct (String.prefix sub "") eqn:E; [|discriminate].
    intros [= <-]. split; [exact E | simpl; lia].
  - destruct (String.prefix sub (String c s)) eqn:E.
    + intros [= <-]. split; [exact E | simpl; lia].
    + destruct (index_nat s sub) as [m|] eqn:Em; [|discriminate].
      intros [= <-]. destruct (IH m eq_refl) as [H1 H2].
      split; [exact H1 | simpl; lia].
Qed.

Lemma index_nat_split (s sub : string) (n : nat) :
  index_nat s sub = Some n ->
  s = firstn n s +:+ sub +:+ skipn (n + String.length sub) s.
Proof.
  intros H. destruct (index_nat_Some _ _ _ H) as [Hp _].
  rewrite str_skipn_add, <- (str_prefix_split _ _ Hp). symmetry. apply str_firstn_skipn.
Qed.

Lemma index_nat_bound (s sub : string) (n : nat) :
  index_nat s sub = Some n ->
  (n + String.length sub <= String.length s)%nat.
Proof.
  intros H. destruct (index_nat_Some _ _ _ H) as [Hp Hn].
  apply str_prefix_length in Hp. rewrite str_length_skipn in Hp. lia.
Qed.

Lemma index_nat_None (s sub : string) :
  index_nat s sub = None -> ~ occurs sub s.
Proof.
  induction s as [|c s IH]; rewrite index_nat_eq.
  - destruct (String.prefix sub "") eqn:E; [discriminate|].
    intros _ (a & b & H). destruct a; [|discriminate].
    destruct sub; [discriminate E | discriminate H].
  - destruct (String.prefix sub (String c s)) eqn:E; [discriminate|].
    destruct (index_nat s sub) eqn:Em; [discriminate|].
    intros _ (a & b & H). destruct a as [|d a].
    + change ("" +:+ sub +:+ b) with (sub +:+ b) in H.
      rewrite H, str_prefix_app in E. discriminate.
    + injection H as -> ->. apply IH; [reflexivity|].
      now exists a, b.
Qed.

(** The first occurrence is where the text says it is. *)
Lemma index_nat_first (pre sub post : string) :
  (forall k, (k < String.length pre)%nat ->
             String.prefix sub (skipn k (pre +:+ sub +:+ post)) = false) ->
  index_nat (pre +:+ sub +:+ post) sub = Some (String.length pre).
Proof.
  induction pre as [|c pre IH]; intros H; rewrite index_nat_eq.
  - change ("" +:+ sub +:+ post) with (sub +:+ post).
    now rewrite str_prefix_app.
  - pose proof (H 0%nat ltac:(simpl; lia)) as H0.
    change (skipn 0 (String c pre +:+ sub +:+ post))
      with (String c pre +:+ sub +:+ post) in H0.
    rewrite H0.
    change (String c pre +:+ sub +:+ post)
      with (String c (pre +:+ sub +:+ post)).
    cbv iota. rewrite IH; [reflexivity|].
    intros k Hk. apply (H (S k)). simpl; lia.
Qed.

Lemma Index_found (s sub : string) :
  Index s sub <> -1 ->
  exists n, index_nat s sub = Some n /\ Index s sub = Z.of_nat n.
Proof.
  unfold Index. destruct (index_nat s sub) as [n|]; [|congruence].
  intros _. now exists n.
Qed.

Lemma Index_absent (s sub : string) : ~ occurs sub s -> Index s sub = -1.
Proof.
  intros H. unfold Index. destruct (index_nat s sub) as [n|] eqn:E;
    [|reflexivity].
  exfalso. apply H. rewrite (index_nat_split _ _ _ E).
  now exists (firstn n s), (skipn (n + String.length sub) s).
Qed.

Lemma Index_occurs (s sub : string) : Index s sub <> -1 -> occurs sub s.
Proof.
  intros H. destruct (Index_found _ _ H) as (n & E & _).
  rewrite (index_nat_split _ _ _ E) at 1.
  now exists (firstn n s), (skipn (n + String.length sub) s).
Qed.

Lemma Index_range (s sub : string) : -1 <= Index s sub <= len s.
Proof.
  unfold Index, len. destruct (index_nat s sub) as [n|] eqn:E; [|lia].
  apply index_nat_Some in E. lia.
Qed.

End StringFacts.

(** ** Status classification *)

Section StatusClass.
Import GoStrings errorpages.

Lemma IsErrorStatus_cases (s : string) :
  IsErrorStatus s =
  Some (match s with
        | String c (String _ (String _ EmptyString)) =>
            Ascii.eqb c "4" || Ascii.eqb c "5"
        | _ => false
        end).
Proof.
  unfold IsErrorStatus, at_index, len.
  destruct s as [|a [|b [|c [|d s]]]]; try reflexivity.
  replace (Z.of_nat (String.length (String a (String b (String c (String d s))))) =? 3)
    with false; [reflexivity|].
  symmetry. apply Z.eqb_neq. simpl String.length. lia.
Qed.

Lemma IsErrorStatus_total (s : string) : is_Some (IsErrorStatus s).
Proof. rewrite IsErrorStatus_cases. eauto. Qed.

(** C2: for every string [s], [IsErrorStatus s] returns true if and
    only if [s] has length exactly 3 and its first byte is ['4'] or
    ['5']. *)
Theorem IsErrorStatus_iff (s : string) :
  IsErrorStatus s = Some true <->
  String.length s = 3%nat /\
  (String.get 0 s = Some "4"%char \/ String.get 0 s = Some "5"%char).
Proof.
  rewrite IsErrorStatus_cases.
  destruct s as [|a [|b [|c [|d s]]]]; simpl;
    try (split; [discriminate | intros [H _]; discriminate H]).
  split.
  - intros [= H]. split; [reflexivity|].
    apply orb_true_iff in H as [H|H]; apply Ascii.eqb_eq in H; subst; auto.
  - intros [_ [[= ->]|[= ->]]]; reflexivity.
Qed.

(** C5, as stated, fails: a status text that is not made of three
    decimal digits can be classified as an error. *)
Lemma IsErrorStatus_nonnumeric_accepted :
  ~ (forall s : string,
       spec.threeDecimalDigits s = false \/ String.length s <> 3%nat ->
       IsErrorStatus s = Some false).
Proof.
  intros H. specialize (H "4xx" (or_introl eq_refl)). discriminate H.
Qed.

(** C5, amended: [IsErrorStatus] returns false, and does not panic,
    for every string whose length is not 3 and for every string whose
    first byte is neither ['4'] nor ['5']; whether the bytes are
    digits plays no role. *)
Theorem IsErrorStatus_rejects (s : string)
  (H : String.length s <> 3%nat \/
       (String.get 0 s <> Some "4"%char /\ String.get 0 s <> Some "5"%char)) :
  IsErrorStatus s = Some false.
Proof.
  rewrite IsErrorStatus_cases.
  destruct s as [|a [|b [|c [|d s]]]]; try reflexivity.
  destruct H as [H|[H4 H5]]; [now contradiction H|].
  cbn [String.get] in H4, H5. f_equal.
  destruct (Ascii.eqb_spec a "4") as [->|_]; [now contradiction H4|].
  destruct (Ascii.eqb_spec a "5") as [->|_]; [now contradiction H5|].
  reflexivity.
Qed.

Lemma IsErrorStatus_rejects_witness :
  IsErrorStatus "40" = Some false /\ IsErrorStatus "abc" = Some false.
Proof.
  split.
  - apply (IsErrorStatus_rejects "40"). left. simpl. lia.
  - apply (IsErrorStatus_rejects "abc"). right. simpl.
    split; discriminate.
Defined.

End StatusClass.

(** ** Status catalog *)

Section StatusCatalog.
Import errorpages.

Lemma messageEntries_NoDup : NoDup messageEntries.*1.
Proof. apply (bool_decide_unpack _). vm_compute. exact I. Qed.

Lemma descriptionEntries_NoDup : NoDup descriptionEntries.*1.
Proof. apply (bool_decide_unpack _). vm_compute. exact I. Qed.

Lemma descriptionEntries_keys : descriptionEntries.*1 = spec.describedCodes.
Proof. reflexivity. Qed.

(** C6: a code with a table entry gets exactly that entry from
    [getStatusMessage], any other code ["Client Error"] when
    [400 <= code < 500] and ["Server Error"] otherwise; the codes with
    a description of their own are 400, 401, 403, 404, 405, 408, 429,
    500, 502, 503 and 504, for which [getStatusDescription] returns the
    listed text, and any other code gets the generic sentence of its
    class. *)
Theorem status_catalog_lookup :
  (forall code msg,
      (code, msg) ∈ messageEntries -> getStatusMessage code = msg)
  /\ (forall code,
         code ∉ messageEntries.*1 ->
         getStatusMessage code =
         if (400 <=? code) && (code <? 500) then "Client Error"
         else "Server Error")
  /\ (forall code desc,
         (code, desc) ∈ descriptionEntries ->
         code ∈ spec.describedCodes /\ getStatusDescription code = desc)
  /\ (forall code,
         code ∈ spec.describedCodes ->
         exists desc, (code, desc) ∈ descriptionEntries)
  /\ (forall code,
         code ∉ spec.describedCodes ->
         getStatusDescription code =
         if (400 <=? code) && (code <? 500)
         then "An error occurred while processing your request."
         else "The server encountered an error while processing your request.").
Proof.
  repeat split.
  - intros code msg H. unfold getStatusMessage, messages.
    now rewrite (elem_of_list_to_map_1 _ _ _ messageEntries_NoDup H).
  - intros code H. unfold getStatusMessage, messages.
    now rewrite (not_elem_of_list_to_map_1 _ _ H).
  - rewrite <- descriptionEntries_keys.
    apply list_elem_of_fmap. now exists (code, desc).
  - unfold getStatusDescription, descriptions.
    now rewrite (elem_of_list_to_map_1 _ _ _ descriptionEntries_NoDup H).
  - intros code H. rewrite <- descriptionEntries_keys in H.
    apply list_elem_of_fmap in H as ([c d] & -> & H). now exists d.
  - intros code H. rewrite <- descriptionEntries_keys in H.
    unfold getStatusDescription, descriptions.
    now rewrite (not_elem_of_list_to_map_1 _ _ H).
Qed.

Example getStatusMessage_404 : getStatusMessage 404 = "Not Found".
Proof. reflexivity. Qed.

Example getStatusMessage_499 : getStatusMessage 499 = "Client Error".
Proof. reflexivity. Qed.

Example getStatusMessage_599 : getStatusMessage 599 = "Server Error".
Proof. reflexivity. Qed.

Example getStatusMessage_200 : getStatusMessage 200 = "Server Error".
Proof. reflexivity. Qed.

Example getStatusDescription_402 :
  getStatusDescription 402 = "An error occurred while processing your request.".
Proof. reflexivity. Qed.

End StatusCatalog.

(** ** HTML escaping *)

Section HtmlEscape.
Import GoStrings errorpages.

Lemma substBytes_app (f : ascii -> string) (s t : string) :
  spec.substBytes f (s +:+ t) = spec.substBytes f s +:+ spec.substBytes f t.
Proof.
  induction s as [|c s IH]; simpl; [reflexivity|].
  now rewrite IH, str_app_assoc.
Qed.

Lemma substBytes_compose (f g : ascii -> string) (s : string) :
  spec.substBytes g (spec.substBytes f s)
  = spec.substBytes (fun c => spec.substBytes g (f c)) s.
Proof.
  induction s as [|c s IH]; simpl; [reflexivity|].
  now rewrite substBytes_app, IH.
Qed.

Lemma substBytes_ext (f g : ascii -> string) (s : string) :
  (forall c, f c = g c) -> spec.substBytes f s = spec.substBytes g s.
Proof.
  intros H. induction s as [|c s IH]; simpl; [reflexivity|].
  now rewrite H, IH.
Qed.

Lemma allBytes_app (P : ascii -> bool) (s t : string) :
  spec.allBytes P (s +:+ t) = spec.allBytes P s && spec.allBytes P t.
Proof.
  induction s as [|c s IH]; simpl; [reflexivity|].
  now rewrite IH, andb_assoc.
Qed.

(** Replacing a one-byte pattern is a bytewise substitution. *)
Lemma ReplaceAll_byte (c0 : ascii) (new s : string) :
  ReplaceAll s (String c0 "") new
  = spec.substBytes
      (fun c => if Ascii.eqb c c0 then new else String c "") s.
Proof.
  unfold ReplaceAll.
  induction s as [|c s IH]; [reflexivity|].
  cbn [replace_go spec.substBytes String.prefix String.length Nat.sub].
  rewrite Ascii.eqb_sym.
  destruct (ascii_dec c0 c) as [->|Hne].
  - rewrite Ascii.eqb_refl, str_prefix_nil. now rewrite IH.
  - apply Ascii.eqb_neq in Hne. rewrite Hne. simpl. now rewrite IH.
Qed.

Lemma escape_rules_compose (c : ascii) :
  spec.substBytes (fun c => if Ascii.eqb c "'" then "&#39;" else String c "")
    (spec.substBytes
       (fun c => if Ascii.eqb c "034" then "&quot;" else String c "")
       (spec.substBytes
          (fun c => if Ascii.eqb c ">" then "&gt;" else String c "")
          (spec.substBytes
             (fun c => if Ascii.eqb c "<" then "&lt;" else String c "")
             (if Ascii.eqb c "&" then "&amp;" else String c ""))))
  = spec.escapeByte c.
Proof.
  destruct c as [[] [] [] [] [] [] [] []]; vm_compute; reflexivity.
Qed.

Lemma escapeByte_clean (c : ascii) :
  spec.allBytes (fun c => negb (spec.isMarkup c)) (spec.escapeByte c) = true.
Proof.
  destruct c as [[] [] [] [] [] [] [] []]; vm_compute; reflexivity.
Qed.

Lemma escapeBytes_clean (s : string) :
  spec.allBytes (fun c => negb (spec.isMarkup c))
    (spec.substBytes spec.escapeByte s) = true.
Proof.
  induction s as [|c s IH]; [reflexivity|].
  cbn [spec.substBytes]. now rewrite allBytes_app, escapeByte_clean, IH.
Qed.

(** C4: [htmlEscape] applies its five rules in the order [&], [<],
    [>], double quote, ['], and the result is the bytewise escaping of
    the input: the ampersand that a later rule introduces is not
    escaped again, and no [<], [>], double quote or ['] is left in the
    output. *)
Theorem htmlEscape_bytewise (s : string) :
  escapeTable.*1 = ["&"; "<"; ">"; dq; "'"]
  /\ htmlEscape s = spec.substBytes spec.escapeByte s
  /\ spec.allBytes (fun c => negb (spec.isMarkup c)) (htmlEscape s) = true.
Proof.
  assert (E : htmlEscape s = spec.substBytes spec.escapeByte s).
  { unfold htmlEscape, escapeTable, dq. cbn [fold_left fst snd].
    rewrite !ReplaceAll_byte, !substBytes_compose.
    apply substBytes_ext. intros c.
    rewrite <- (escape_rules_compose c), !substBytes_compose.
    reflexivity. }
  split; [reflexivity|]. split; [exact E|].
  rewrite E. apply escapeBytes_clean.
Qed.

Example htmlEscape_sample :
  htmlEscape ("<a href=" +:+ dq +:+ "x" +:+ dq +:+ ">R&D's</a>")
  = "&lt;a href=&quot;x&quot;&gt;R&amp;D&#39;s&lt;/a&gt;".
Proof. reflexivity. Qed.

End HtmlEscape.

(** ** Configuration *)

Section Config.
Import GoStrings config.

Lemma parseLine_Theme (cfg : Config) (l : string) :
  Theme (parseLine cfg l) =
  if spec.assigns "theme:" l then spec.assignedValue "theme:" l
  else Theme cfg.
Proof.
  unfold parseLine, spec.assigns, spec.activeLine, spec.assignedValue.
  destruct (HasPrefix (TrimSpace l) "#" || String.eqb (TrimSpace l) "");
    [reflexivity|].
  cbn [negb andb].
  destruct (HasPrefix (TrimSpace l) "theme:");
    destruct (HasPrefix (TrimSpace l) "show_details:"); reflexivity.
Qed.

Lemma parseLine_ShowDetails (cfg : Config) (l : string) :
  ShowDetails (parseLine cfg l) =
  if spec.assigns "show_details:" l
  then String.eqb (spec.assignedValue "show_details:" l) "true"
  else ShowDetails cfg.
Proof.
  unfold parseLine, spec.assigns, spec.activeLine, spec.assignedValue.
  destruct (HasPrefix (TrimSpace l) "#" || String.eqb (TrimSpace l) "");
    [reflexivity|].
  cbn [negb andb].
  destruct (HasPrefix (TrimSpace l) "theme:");
    destruct (HasPrefix (TrimSpace l) "show_details:"); reflexivity.
Qed.

Lemma lastAssignment_cons (key l : string) (lines : list string) :
  spec.lastAssignment key (l :: lines) =
  match spec.lastAssignment key lines with
  | Some l' => Some l'
  | None => if spec.assigns key l then Some l else None
  end.
Proof.
  unfold spec.lastAssignment. cbn [List.filter].
  destruct (spec.assigns key l).
  - rewrite last_cons.
    now destruct (last (List.filter (spec.assigns key) lines)).
  - now destruct (last (List.filter (spec.assigns key) lines)).
Qed.

Lemma fold_parseLine (lines : list string) (cfg : Config) :
  Theme (fold_left parseLine lines cfg) =
    match spec.lastAssignment "theme:" lines with
    | Some l => spec.assignedValue "theme:" l
    | None => Theme cfg
    end
  /\ ShowDetails (fold_left parseLine lines cfg) =
    match spec.lastAssignment "show_details:" lines with
    | Some l => String.eqb (spec.assignedValue "show_details:" l) "true"
    | None => ShowDetails cfg
    end.
Proof.
  revert cfg. induction lines as [|l lines IH]; intros cfg.
  - split; reflexivity.
  - cbn [fold_left]. destruct (IH (parseLine cfg l)) as [IH1 IH2].
    rewrite IH1, IH2, !lastAssignment_cons,
      parseLine_Theme, parseLine_ShowDetails.
    split.
    + destruct (spec.lastAssignment "theme:" lines); [reflexivity|].
      now destruct (spec.assigns "theme:" l).
    + destruct (spec.lastAssignment "show_details:" lines); [reflexivity|].
      now destruct (spec.assigns "show_details:" l).
Qed.

(** C10: for every input, [Parse] returns a configuration and no
    error; [Theme] is ["cats"] and [ShowDetails] is true unless a line
    assigns them, and [ShowDetails] is then true exactly when the
    value of the last [show_details:] line is the string ["true"]. *)
Theorem Parse_never_fails (yamlContent : string) :
  exists cfg : Config,
    Parse yamlContent = (Some cfg, None)
    /\ Theme cfg =
         match spec.lastAssignment "theme:" (Split yamlContent nl) with
         | Some l => spec.assignedValue "theme:" l
         | None => "cats"
         end
    /\ (ShowDetails cfg = true <->
        match spec.lastAssignment "show_details:" (Split yamlContent nl) with
        | Some l => spec.assignedValue "show_details:" l = "true"
        | None => True
        end).
Proof.
  eexists. split; [reflexivity|].
  destruct (fold_parseLine (Split yamlContent nl) (mkConfig "cats" true))
    as [H1 H2].
  split; [exact H1|]. rewrite H2.
  destruct (spec.lastAssignment "show_details:" (Split yamlContent nl)).
  - apply String.eqb_eq.
  - cbn. tauto.
Qed.

Example Parse_empty : Parse "" = (Some (mkConfig "cats" true), None).
Proof. reflexivity. Qed.

Example Parse_True :
  Parse "show_details: True" = (Some (mkConfig "cats" false), None).
Proof. reflexivity. Qed.

Example Parse_yes :
  Parse "show_details: yes" = (Some (mkConfig "cats" false), None).
Proof. reflexivity. Qed.

Example Parse_1 :
  Parse "show_details: 1" = (Some (mkConfig "cats" false), None).
Proof. reflexivity. Qed.

Example Parse_true :
  Parse ("theme: app-down" +:+ nl +:+ "show_details: false" +:+ nl
         +:+ "  show_details:   true  ")
  = (Some (mkConfig "app-down" true), None).
Proof. reflexivity. Qed.

End Config.

(** ** Texts in which a pattern does not occur *)

Section Absent.
Import GoStrings.

Lemma str_rev_app (s t : string) : rev (s +:+ t) = rev t +:+ rev s.
Proof.
  induction s as [|c s IH]; simpl.
  - now rewrite str_app_nil_r.
  - now rewrite IH, str_app_assoc.
Qed.

Lemma str_rev_involutive (s : string) : rev (rev s) = s.
Proof.
  induction s as [|c s IH]; simpl; [reflexivity|].
  now rewrite str_rev_app, IH.
Qed.

Lemma occurs_rev (x s : string) : occurs x s -> occurs (rev x) (rev s).
Proof.
  intros (a & b & ->). exists (rev b), (rev a).
  now rewrite !str_rev_app, str_app_assoc.
Qed.

Lemma occurs_rev_l (x s : string) : occurs x (rev s) -> occurs (rev x) s.
Proof. intros H. apply occurs_rev in H. now rewrite str_rev_involutive in H. Qed.

Lemma occurs_slice (s : string) (lo hi : Z) : occurs (slice s lo hi) s.
Proof.
  unfold slice. eapply occurs_trans; [apply occurs_firstn | apply occurs_skipn].
Qed.

Lemma occurs_TrimPrefix (s p : string) : occurs (TrimPrefix s p) s.
Proof.
  unfold TrimPrefix, sliceFrom.
  destruct (HasPrefix s p); [apply occurs_skipn | apply occurs_refl].
Qed.

Lemma occurs_TrimSuffix (s p : string) : occurs (TrimSuffix s p) s.
Proof.
  unfold TrimSuffix, sliceTo.
  destruct (HasSuffix s p); [apply occurs_firstn | apply occurs_refl].
Qed.

Lemma occurs_trimLeftSpace (n : nat) (s : string) :
  occurs (trimLeftSpace n s) s.
Proof.
  revert s; induction n as [|n IH]; intros s; cbn [trimLeftSpace];
    [apply occurs_refl|].
  destruct (space_width s); [apply occurs_refl|].
  eapply occurs_trans; [apply IH | apply occurs_skipn].
Qed.

Lemma occurs_trimLeftSpace_rev (n : nat) (s : string) :
  occurs (trimLeftSpace_rev n s) s.
Proof.
  revert s; induction n as [|n IH]; intros s; cbn [trimLeftSpace_rev];
    [apply occurs_refl|].
  destruct (space_width_rev s); [apply occurs_refl|].
  eapply occurs_trans; [apply IH | apply occurs_skipn].
Qed.

Lemma occurs_TrimSpace (s : string) : occurs (TrimSpace s) s.
Proof.
  unfold TrimSpace.
  eapply occurs_trans; [|apply occurs_trimLeftSpace].
  apply occurs_rev_l, occurs_trimLeftSpace_rev.
Qed.

Lemma prefix_occurs (p s : string) : String.prefix p s = true -> occurs p s.
Proof.
  intros H. rewrite (str_prefix_split _ _ H) at 1. apply occurs_app_l.
Qed.


(** *** [strings.ReplaceAll] *)

Lemma replace_go_absent (old new s : string) :
  ~ occurs old s -> replace_go old new 0 s = s.
Proof.
  induction s as [|c s IH]; intros H; [reflexivity|].
  cbn [replace_go].
  destruct (String.prefix old (String c s)) eqn:E.
  - exfalso. apply H. now apply prefix_occurs.
  - rewrite IH; [reflexivity|]. intros Ho. apply H. now apply occurs_cons.
Qed.

Lemma ReplaceAll_absent (s old new : string) :
  ~ occurs old s -> ReplaceAll s old new = s.
Proof.
  intros H. destruct old as [|c old].
  - exfalso. apply H. now exists "", s.
  - apply replace_go_absent, H.
Qed.

(** *** [strings.Split] and [strings.Join] on a one-byte separator *)

Lemma split_go_byte (c0 : ascii) (s : string) :
  let '(p, ps) := split_go (String c0 "") 0 s in
  String.concat (String c0 "") (p :: ps) = s.
Proof.
  induction s as [|c s IH]; [reflexivity|].
  cbn [split_go String.prefix String.length Nat.sub].
  destruct (split_go (String c0 "") 0 s) as [p ps].
  destruct (ascii_dec c0 c) as [->|Hne].
  - rewrite str_prefix_nil.
    change (String.concat (String c "") ("" :: p :: ps))
      with (String c (String.concat (String c "") (p :: ps))).
    now rewrite IH.
  - destruct ps as [|q ps]; cbn [String.concat] in *; now rewrite <- IH.
Qed.

Lemma Join_Split_byte (c0 : ascii) (s : string) :
  Join (Split s (String c0 "")) (String c0 "") = s.
Proof.
  unfold Join, Split. pose proof (split_go_byte c0 s) as H.
  now destruct (split_go (String c0 "") 0 s) as [p ps].
Qed.

Lemma occurs_concat (sep l : string) (ls : list string) :
  In l ls -> occurs l (String.concat sep ls).
Proof.
  induction ls as [|x [|y ls] IH]; intros H; [destruct H| |].
  - destruct H as [->|[]]. apply occurs_refl.
  - change (String.concat sep (x :: y :: ls))
      with (x +:+ sep +:+ String.concat sep (y :: ls)).
    destruct H as [->|H]; [apply occurs_app_l|].
    eapply occurs_trans; [apply (IH H)|].
    eapply occurs_trans; apply occurs_app_r.
Qed.

Lemma occurs_Split_byte (c0 : ascii) (s l : string) :
  In l (Split s (String c0 "")) -> occurs l s.
Proof.
  intros H. rewrite <- (Join_Split_byte c0 s) at 1.
  now apply occurs_concat.
Qed.

(** *** Template actions *)

Lemma hasAction_occurs (x s : string) :
  occurs x s -> spec.hasAction x -> spec.hasAction s.
Proof.
  intros (u & v & ->) (a & b & c & ->).
  exists (u +:+ a), b, (c +:+ v). now rewrite !str_app_assoc.
Qed.

Lemma no_action_absent (doc pat a b c : string) :
  pat = a +:+ "{{" +:+ b +:+ "}}" +:+ c ->
  ~ spec.hasAction doc -> ~ occurs pat doc.
Proof.
  intros -> H Ho. apply H. eapply hasAction_occurs; [exact Ho|].
  now exists a, b, c.
Qed.

End Absent.

(** ** Slices of a concatenation *)

Section Slices.
Import GoStrings.

Lemma len_app (s t : string) : len (s +:+ t) = len s + len t.
Proof. unfold len. rewrite str_length_app. lia. Qed.

Lemma len_nonneg (s : string) : 0 <= len s.
Proof. unfold len. lia. Qed.


Lemma sliceFrom_app (a b : string) : sliceFrom (a +:+ b) (len a) = b.
Proof. unfold sliceFrom, len. rewrite Nat2Z.id. apply str_skipn_app_length. Qed.


End Slices.

(** ** The auto-refresh block *)

Section AutoRefresh.
Import GoStrings errorpages.



Lemma processComplexRefreshConditional_absent (t : string) (show : bool) :
  ~ occurs refreshStart t -> processComplexRefreshConditional t show = t.
Proof.
  intros H. unfold processComplexRefreshConditional.
  now rewrite (Index_absent _ _ H).
Qed.

(** *** Texts without actions pass through the engine *)

Lemma scanPatterns_absent (again : string -> option string)
    (result : string) (show : bool) (ps : list (string * string)) :
  Forall (fun p => ~ occurs p.1 result) ps ->
  scanPatterns again result show ps = Some result.
Proof.
  induction 1 as [|[pstart pend] ps H _ IH]; [reflexivity|].
  cbn [scanPatterns]. cbn [fst] in H. now rewrite (Index_absent _ _ H).
Qed.

Lemma patterns_have_action (condition : string) :
  Forall (fun p => exists a b c, p.1 = a +:+ "{{" +:+ b +:+ "}}" +:+ c)
    (patterns condition).
Proof.
  unfold patterns. repeat constructor; cbn [fst].
  - exists "<!-- ", ("- if " +:+ condition +:+ " -"), " -->".
    rewrite ?str_app_assoc. reflexivity.
  - exists "<!-- ", (" if " +:+ condition +:+ " "), " -->".
    rewrite ?str_app_assoc. reflexivity.
  - exists "<!-- ", ("- if " +:+ condition +:+ " "), " -->".
    rewrite ?str_app_assoc. reflexivity.
  - exists "<!-- ", (" if " +:+ condition +:+ " -"), " -->".
    rewrite ?str_app_assoc. reflexivity.
  - exists "<!-- ", ("if " +:+ condition), " -->".
    rewrite ?str_app_assoc. reflexivity.
  - exists "<!-- ", ("- if " +:+ condition +:+ " -"), "-->".
    rewrite ?str_app_assoc. reflexivity.
Qed.

Lemma processIfBlock_fuel_no_action (n : nat) (t condition : string)
    (show : bool) :
  ~ spec.hasAction t ->
  processIfBlock_fuel (S n) t condition show = Some t.
Proof.
  intros H. cbn [processIfBlock_fuel]. apply scanPatterns_absent.
  eapply Forall_impl; [apply patterns_have_action|].
  intros p (a & b & c & E). now apply (no_action_absent _ _ a b c).
Qed.

Lemma processIfBlock_no_action (t condition : string) (show : bool) :
  ~ spec.hasAction t -> processIfBlock t condition show = t.
Proof.
  intros H. unfold processIfBlock.
  now rewrite processIfBlock_fuel_no_action.
Qed.

Lemma refreshStart_has_action :
  exists a b c, refreshStart = a +:+ "{{" +:+ b +:+ "}}" +:+ c.
Proof.
  exists "<!-- ",
    " if or (eq code 408) (eq code 425) (eq code 429) (eq code 500) (eq code 502) (eq code 503) (eq code 504) ",
    " -->".
  reflexivity.
Qed.

Lemma processConditionals_no_action (t : string) (data : TemplateData) :
  ~ spec.hasAction t -> processConditionals t data = t.
Proof.
  intros H. unfold processConditionals.
  destruct refreshStart_has_action as (a & b & c & E).
  rewrite processComplexRefreshConditional_absent
    by now apply (no_action_absent _ _ a b c).
  rewrite (processIfBlock_no_action t) by exact H.
  now rewrite (processIfBlock_no_action t) by exact H.
Qed.

Lemma replacements_have_action (data : TemplateData) :
  Forall (fun kv => exists a b c, kv.1 = a +:+ "{{" +:+ b +:+ "}}" +:+ c)
    (replacements data).
Proof.
  unfold replacements. repeat constructor; cbn [fst];
    match goal with
    | |- exists a b c, String _ (String _ ?s) = _ =>
        exists "";
        let n := eval vm_compute in (Nat.sub (String.length s) 2) in
        exists (firstn n s), ""; reflexivity
    end.
Qed.

Lemma rangeMap_Forall {A : Type} (P : A -> Prop) (o : MapOrder)
    (entries : list A) :
  Forall P entries -> Forall P (rangeMap o entries).
Proof.
  intros H. unfold rangeMap. rewrite Forall_forall in H |- *.
  intros x Hx. apply list_elem_of_omap in Hx as (i & _ & E).
  apply H. eapply list_elem_of_lookup_2, E.
Qed.

Lemma substitute_absent (kvs : list (string * string)) (t : string) :
  Forall (fun kv => ~ occurs kv.1 t) kvs ->
  fold_left (fun result kv => ReplaceAll result kv.1 kv.2) kvs t = t.
Proof.
  induction 1 as [|kv kvs H _ IH]; [reflexivity|].
  cbn [fold_left]. now rewrite (ReplaceAll_absent _ _ _ H).
Qed.

Lemma renderTemplate_no_action (o : MapOrder) (h : Handler) (t : string)
    (data : TemplateData) :
  ~ spec.hasAction t -> renderTemplate o h t data = t.
Proof.
  intros H. unfold renderTemplate.
  rewrite (processConditionals_no_action _ _ H).
  apply substitute_absent.
  eapply Forall_impl; [apply rangeMap_Forall, replacements_have_action|].
  intros kv (a & b & c & E). now apply (no_action_absent _ _ a b c).
Qed.




End AutoRefresh.

Section AutoRefreshPage.
Import GoStrings errorpages.





End AutoRefreshPage.

(** ** The preprocessor on texts without actions *)

Section Preprocess.
Import GoStrings errorpages_tmpl.

Lemma occurs_close_after_open (r : string) :
  occurs "}}" (String "{" (String "{" r)) -> occurs "}}" r.
Proof.
  intros (a & b & H). destruct a as [|x [|y a]].
  - discriminate H.
  - injection H as _ H. discriminate H.
  - injection H as _ _ H. now exists a, b.
Qed.

(** When the loop of [containsOnlyDirectives] gets past its first two
    searches, the text holds an action. *)
Lemma open_close_action (s : string) :
  Index s "{{" <> -1 ->
  Index (sliceFrom s (Index s "{{")) "}}" <> -1 ->
  spec.hasAction s.
Proof.
  intros H1 H2. destruct (Index_found _ _ H1) as (n & En & Ei).
  rewrite Ei in H2. unfold sliceFrom in H2. rewrite Nat2Z.id in H2.
  destruct (index_nat_Some _ _ _ En) as [Hp _].
  apply str_prefix_split in Hp. cbn [String.length] in Hp.
  apply Index_occurs in H2. rewrite Hp in H2.
  apply occurs_close_after_open in H2 as (a & b & E).
  exists (firstn n s), a, b.
  rewrite <- (str_firstn_skipn n s) at 1. rewrite Hp, E. reflexivity.
Qed.

Lemma directivesLoop_no_action (n : nat) (s : string) :
  ~ spec.hasAction s -> directivesLoop (S n) s false = Some false.
Proof.
  intros H. cbn [directivesLoop].
  destruct (negb (0 <? len s)); [reflexivity|].
  destruct (Index s "{{" =? -1) eqn:E1; [reflexivity|].
  destruct (negb (String.eqb (TrimSpace (sliceTo s (Index s "{{"))) ""));
    [reflexivity|].
  destruct (Index (sliceFrom s (Index s "{{")) "}}" =? -1) eqn:E2;
    [reflexivity|].
  exfalso. apply H, open_close_action; now apply Z.eqb_neq.
Qed.

Lemma containsOnlyDirectives_no_action (s : string) :
  ~ spec.hasAction s -> containsOnlyDirectives s = false.
Proof.
  intros H. unfold containsOnlyDirectives.
  destruct (String.eqb (TrimSpace s) ""); [reflexivity|].
  rewrite directivesLoop_no_action; [reflexivity|].
  intros Ha. apply H. eapply hasAction_occurs; [apply occurs_TrimSpace | exact Ha].
Qed.

Lemma unwrap_no_action (inner : string) :
  ~ spec.hasAction inner -> unwrap inner = None.
Proof.
  intros H. unfold unwrap. now rewrite containsOnlyDirectives_no_action.
Qed.

Lemma preprocessLine_no_action (line : string) :
  ~ spec.hasAction line -> preprocessLine line = line.
Proof.
  intros H. unfold preprocessLine, htmlWrapper, cssWrapper, jsWrapper.
  assert (Ht : ~ spec.hasAction (TrimSpace line)).
  { intros Ha. apply H. eapply hasAction_occurs; [apply occurs_TrimSpace | exact Ha]. }
  assert (Hu : forall p q,
             unwrap (TrimSpace (TrimSuffix (TrimPrefix (TrimSpace line) p) q))
             = None).
  { intros p q. apply unwrap_no_action. intros Ha. apply Ht.
    eapply hasAction_occurs; [|exact Ha].
    eapply occurs_trans; [apply occurs_TrimSpace|].
    eapply occurs_trans; [apply occurs_TrimSuffix | apply occurs_TrimPrefix]. }
  assert (Hv : forall p, unwrap (TrimSpace (TrimPrefix (TrimSpace line) p)) = None).
  { intros p. apply unwrap_no_action. intros Ha. apply Ht.
    eapply hasAction_occurs; [|exact Ha].
    eapply occurs_trans; [apply occurs_TrimSpace | apply occurs_TrimPrefix]. }
  rewrite !Hu, Hv.
  repeat match goal with
         | |- context [if ?c then _ else _] => destruct c
         end; reflexivity.
Qed.

Lemma preprocessTemplate_no_action (doc : string) :
  ~ spec.hasAction doc -> preprocessTemplate doc = doc.
Proof.
  intros H. unfold preprocessTemplate, nl.
  rewrite (map_ext_in preprocessLine id), map_id; [apply Join_Split_byte|].
  intros l Hl. apply preprocessLine_no_action. intros Ha. apply H.
  eapply hasAction_occurs; [eapply occurs_Split_byte, Hl | exact Ha].
Qed.

(** C9: on a document without actions (no [{{] followed by [}}]), the
    preprocessing step and the conditional-evaluation and substitution
    step both return the document unchanged, whatever the render data
    and the order of the substitutions. *)
Theorem resolved_document_unchanged (doc : string)
    (H : ~ spec.hasAction doc) :
  preprocessTemplate doc = doc
  /\ (forall o h data, errorpages.renderTemplate o h doc data = doc)
  /\ (forall o h data,
        errorpages.renderTemplate o h (preprocessTemplate doc) data = doc).
Proof.
  pose proof (preprocessTemplate_no_action doc H) as Hp.
  split; [exact Hp|]. split.
  - intros o h data. now apply renderTemplate_no_action.
  - intros o h data. rewrite Hp. now apply renderTemplate_no_action.
Qed.

Lemma resolved_document_unchanged_witness :
  preprocessTemplate ("<html>" +:+ nl +:+ "  <h1>404 Not Found</h1> {{" +:+ nl
                      +:+ "</html>")
  = "<html>" +:+ nl +:+ "  <h1>404 Not Found</h1> {{" +:+ nl +:+ "</html>".
Proof.
  apply (resolved_document_unchanged
           ("<html>" +:+ nl +:+ "  <h1>404 Not Found</h1> {{" +:+ nl
            +:+ "</html>")).
  intros (a & b & c & E).
  assert (Ho : occurs "}}" ("<html>" +:+ nl +:+ "  <h1>404 Not Found</h1> {{"
                            +:+ nl +:+ "</html>")).
  { rewrite E. exists (a +:+ "{{" +:+ b), c. now rewrite !str_app_assoc. }
  revert Ho. apply index_nat_None. reflexivity.
Defined.

End Preprocess.

(** ** Order of the substitutions *)

Section MapOrder.
Import GoStrings errorpages.

(** With an explicit timestamp the clock plays no role. *)
Lemma RenderErrorPage_explicit_time (now1 now2 : Z) (o : MapOrder)
    (h : Handler) (data : TemplateData) :
  NowUnix data <> 0 ->
  RenderErrorPage now1 o h data = RenderErrorPage now2 o h data.
Proof.
  intros H. unfold RenderErrorPage, applyDefaults.
  apply Z.eqb_neq in H. now rewrite H.
Qed.

Lemma sourceOrder_valid : validOrder sourceOrder 11.
Proof. unfold validOrder, sourceOrder. reflexivity. Qed.

Lemma requestIdFirst_valid : validOrder spec.requestIdFirst 11.
Proof.
  unfold validOrder. apply (bool_decide_unpack _). vm_compute. exact I.
Qed.

(** C8, at the failing input: the same handler and the same data, with
    an explicit timestamp, render to two different pages under two
    iteration orders of the [replacements] map. *)
Theorem RenderErrorPage_order_dependent :
  let h := mkHandler "<td>{{ request_id }}</td>" "dev" in
  let data :=
    mkTemplateData 404 "" "" true "" "" "" "{{ code }}" 1700000000 false "" in
  validOrder sourceOrder (List.length (replacements data))
  /\ validOrder spec.requestIdFirst (List.length (replacements data))
  /\ NowUnix data <> 0
  /\ (RenderErrorPage 0 sourceOrder h data).2.1 = "<td>{{ code }}</td>"
  /\ (RenderErrorPage 0 spec.requestIdFirst h data).2.1 = "<td>404</td>".
Proof.
  cbv zeta. split; [exact sourceOrder_valid|].
  split; [exact requestIdFirst_valid|].
  split; [discriminate|]. split; vm_compute; reflexivity.
Qed.

End MapOrder.

(** ** The preprocessor and the control keywords *)

Section ControlKeywords.
Import GoStrings errorpages_tmpl.

Lemma unwrap_Some (inner l : string) :
  unwrap inner = Some l ->
  containsOnlyDirectives inner = true /\ l = ensureOuterTrimMarkers inner.
Proof.
  unfold unwrap. destruct (containsOnlyDirectives inner); [|discriminate].
  intros [= <-]. now split.
Qed.

Lemma htmlWrapper_Some (trimmed l : string) :
  htmlWrapper trimmed = Some l ->
  HasPrefix trimmed "<!--" = true /\ HasSuffix trimmed "-->" = true
  /\ unwrap (TrimSpace (TrimSuffix (TrimPrefix trimmed "<!--") "-->")) = Some l.
Proof.
  unfold htmlWrapper.
  destruct (HasPrefix trimmed "<!--"), (HasSuffix trimmed "-->");
    cbn [andb negb]; try discriminate. intros H. now repeat split.
Qed.

Lemma cssWrapper_Some (trimmed l : string) :
  cssWrapper trimmed = Some l ->
  HasPrefix trimmed "/*" = true /\ HasSuffix trimmed "*/" = true
  /\ unwrap (TrimSpace (TrimSuffix (TrimPrefix trimmed "/*") "*/")) = Some l.
Proof.
  unfold cssWrapper.
  destruct (HasPrefix trimmed "/*"), (HasSuffix trimmed "*/");
    cbn [andb negb]; try discriminate. intros H. now repeat split.
Qed.

Lemma jsWrapper_Some (trimmed l : string) :
  jsWrapper trimmed = Some l ->
  HasPrefix trimmed "//" = true /\ HasPrefix trimmed "///" = false
  /\ unwrap (TrimSpace (TrimPrefix trimmed "//")) = Some l.
Proof.
  unfold jsWrapper.
  destruct (HasPrefix trimmed "//"), (HasPrefix trimmed "///");
    cbn [andb negb]; try discriminate. intros H. now repeat split.
Qed.

(** A line that the preprocessor rewrites is one of the three comment
    wrappers around a text that [containsOnlyDirectives] accepts. *)
Lemma preprocessLine_changed (line : string) :
  preprocessLine line <> line ->
  let trimmed := TrimSpace line in
  exists inner,
    containsOnlyDirectives inner = true
    /\ preprocessLine line = ensureOuterTrimMarkers inner
    /\ ((HasPrefix trimmed "<!--" = true /\ HasSuffix trimmed "-->" = true
         /\ inner = TrimSpace (TrimSuffix (TrimPrefix trimmed "<!--") "-->"))
        \/ (HasPrefix trimmed "/*" = true /\ HasSuffix trimmed "*/" = true
            /\ inner = TrimSpace (TrimSuffix (TrimPrefix trimmed "/*") "*/"))
        \/ (HasPrefix trimmed "//" = true /\ HasPrefix trimmed "///" = false
            /\ inner = TrimSpace (TrimPrefix trimmed "//"))).
Proof.
  intros H trimmed. revert H. unfold preprocessLine. fold trimmed.
  destruct (htmlWrapper trimmed) as [l|] eqn:E1.
  { intros _. apply htmlWrapper_Some in E1 as (P & S & E).
    apply unwrap_Some in E as [C ->]. eexists. eauto 10. }
  destruct (cssWrapper trimmed) as [l|] eqn:E2.
  { intros _. apply cssWrapper_Some in E2 as (P & S & E).
    apply unwrap_Some in E as [C ->]. eexists. eauto 10. }
  destruct (jsWrapper trimmed) as [l|] eqn:E3.
  { intros _. apply jsWrapper_Some in E3 as (P & S & E).
    apply unwrap_Some in E as [C ->]. eexists. eauto 10. }
  intros H. now contradiction H.
Qed.

(** C7, at the failing input: [endpoint] is no control keyword, but it
    begins with [end], the list entry without a trailing space, and the
    comment around it is removed; the same line with [l10nScript] is
    left as it is. *)
Theorem preprocessTemplate_unwraps_endpoint :
  isControlKeyword "endpoint" = true
  /\ preprocessTemplate "// {{ endpoint }}" = "{{- endpoint -}}"
  /\ preprocessTemplate "<!-- {{ elsewhere }} -->" = "{{- elsewhere -}}"
  /\ preprocessTemplate "// {{ l10nScript }}" = "// {{ l10nScript }}"
  /\ preprocessTemplate "<p>text</p> <!-- {{ end }} -->"
     = "<p>text</p> <!-- {{ end }} -->".
Proof. repeat split; vm_compute; reflexivity. Qed.

End ControlKeywords.

(** ** The response body handler *)

Section ResponseBody.
Import GoStrings plugin.

Lemma OnHttpResponseBody_pass_through (g : Globals) (ctx : httpContext)
    (bodySize : Z) (endOfStream : bool) (h : Host) :
  shouldReplaceBody ctx = false ->
  OnHttpResponseBody g ctx bodySize endOfStream h = (ActionContinue, h).
Proof. intros H. unfold OnHttpResponseBody. now rewrite H. Qed.

Lemma OnHttpResponseBody_pause (g : Globals) (ctx : httpContext)
    (bodySize : Z) (h : Host) :
  shouldReplaceBody ctx = true ->
  OnHttpResponseBody g ctx bodySize false h = (ActionPause, h).
Proof. intros H. unfold OnHttpResponseBody. now rewrite H. Qed.

Lemma OnHttpResponseBody_end (g : Globals) (ctx : httpContext)
    (bodySize : Z) (h : Host) :
  shouldReplaceBody ctx = true ->
  exists h',
    OnHttpResponseBody g ctx bodySize true h = (ActionContinue, h')
    /\ responseBody h' =
       (if acceptsBodyReplace h then spec.errorPage g ctx else responseBody h)
    /\ responseHeaders h' = responseHeaders h.
Proof.
  intros H. unfold OnHttpResponseBody, spec.errorPage. rewrite H.
  cbn [negb]. unfold errorpages.RenderErrorPage, ReplaceHttpResponseBody.
  cbn [fst snd].
  destruct (acceptsBodyReplace h) eqn:E; eexists; split; try reflexivity;
    cbn [log responseBody responseHeaders]; rewrite ?E; now split.
Qed.

Lemma deliver_pass_through (g : Globals) (ctx : httpContext)
    (chunks : list (Z * bool)) (h : Host) :
  shouldReplaceBody ctx = false ->
  deliver g ctx chunks h = (repeat ActionContinue (List.length chunks), h).
Proof.
  intros H. induction chunks as [|[sz eos] chunks IH]; [reflexivity|].
  cbn [deliver]. rewrite (OnHttpResponseBody_pass_through _ _ _ _ _ H), IH.
  reflexivity.
Qed.

Lemma deliver_paused (g : Globals) (ctx : httpContext)
    (pre rest : list (Z * bool)) (h : Host) :
  shouldReplaceBody ctx = true ->
  spec.notLast pre ->
  deliver g ctx (pre ++ rest) h =
  (repeat ActionPause (List.length pre) ++ (deliver g ctx rest h).1,
   (deliver g ctx rest h).2).
Proof.
  intros H Hpre. induction Hpre as [|[sz eos] pre Hc _ IH].
  - cbn [app List.length repeat]. now destruct (deliver g ctx rest h).
  - cbn [snd] in Hc. subst eos. cbn [app deliver].
    rewrite (OnHttpResponseBody_pause _ _ _ _ H), IH. reflexivity.
Qed.

(** C1, as stated, fails: at the end of the stream the handler returns
    [ActionContinue] also when the host has refused the replacement, and
    the body is then not the rendered page. *)
Lemma OnHttpResponseBody_replace_refused :
  ~ (forall (g : Globals) (ctx : httpContext) (bodySize : Z) (h : Host),
       shouldReplaceBody ctx = true ->
       exists h',
         OnHttpResponseBody g ctx bodySize true h = (ActionContinue, h')
         /\ responseBody h' = spec.errorPage g ctx).
Proof.
  intros H.
  destruct (H (mkGlobals (errorpages.mkHandler "{{ code }}" "dev")
                 (config.mkConfig "cats" true) 1700000000
                 errorpages.sourceOrder)
              (mkHttpContext true "500" "" "" "" "") 8
              (mkHost [] [(":status", "500")] "upstream" false [])
              eq_refl) as (h' & E & Hb).
  vm_compute in E. injection E as <-. vm_compute in Hb. discriminate Hb.
Qed.

(** C1, amended: for an intercepted response the handler returns
    [ActionPause] on every chunk before the end of the stream and leaves
    the host as it is, and returns [ActionContinue] once, on the last
    chunk, after rendering the page and asking the host to replace the
    body: the body is then the rendered page if the host accepts the
    replacement and the original body if it refuses. For a pass-through
    response every chunk yields [ActionContinue] and the host is left as
    it is. *)
Theorem OnHttpResponseBody_stream (g : Globals) (ctx : httpContext)
    (pre : list (Z * bool)) (bodySize : Z) (h : Host)
    (Hpre : spec.notLast pre) :
  if shouldReplaceBody ctx then
    exists h',
      deliver g ctx (pre ++ [(bodySize, true)]) h
      = (repeat ActionPause (List.length pre) ++ [ActionContinue], h')
      /\ deliver g ctx pre h = (repeat ActionPause (List.length pre), h)
      /\ responseBody h' =
         (if acceptsBodyReplace h then spec.errorPage g ctx
          else responseBody h)
  else
    deliver g ctx (pre ++ [(bodySize, true)]) h
    = (repeat ActionContinue (List.length pre + 1), h).
Proof.
  destruct (shouldReplaceBody ctx) eqn:H.
  - destruct (OnHttpResponseBody_end g ctx bodySize h H) as (h' & E & Hb & _).
    exists h'. split; [|split; [|exact Hb]].
    + rewrite (deliver_paused _ _ _ _ _ H Hpre). cbn [deliver]. now rewrite E.
    + pose proof (deliver_paused g ctx pre [] h H Hpre) as Hd.
      rewrite List.app_nil_r in Hd. cbn [fst snd deliver] in Hd.
      rewrite List.app_nil_r in Hd. exact Hd.
  - rewrite (deliver_pass_through _ _ _ _ H), List.length_app. reflexivity.
Qed.

Lemma OnHttpResponseBody_stream_witness :
  exists h',
    deliver
      (mkGlobals
         (errorpages.mkHandler "<h1>{{ code }} {{ message }}</h1>" "dev")
         (config.mkConfig "cats" true) 1700000000 errorpages.sourceOrder)
      (mkHttpContext true "500" "example.com" "/missing" "" "")
      ([(10, false); (20, false)] ++ [(5, true)])
      (mkHost [] [(":status", "500")] "upstream" true [])
    = ([ActionPause; ActionPause; ActionContinue], h')
    /\ responseBody h' = "<h1>500 Internal Server Error</h1>".
Proof.
  pose proof (OnHttpResponseBody_stream
                (mkGlobals
                   (errorpages.mkHandler "<h1>{{ code }} {{ message }}</h1>"
                      "dev")
                   (config.mkConfig "cats" true) 1700000000
                   errorpages.sourceOrder)
                (mkHttpContext true "500" "example.com" "/missing" "" "")
                [(10, false); (20, false)] 5
                (mkHost [] [(":status", "500")] "upstream" true [])
                ltac:(repeat constructor)) as H.
  cbn [shouldReplaceBody] in H. destruct H as (h' & E & _ & Hb).
  exists h'. split; [exact E|]. rewrite Hb. vm_compute. reflexivity.
Defined.

(** The response headers decide the interception. *)
Lemma OnHttpResponseHeaders_classifies (ctx : httpContext) (n : Z)
    (eos : bool) (h : Host) (status : string) :
  shouldReplaceBody ctx = false ->
  GetHttpResponseHeader ":status" h = inl status ->
  exists ctx' h',
    OnHttpResponseHeaders ctx n eos h = Some (ActionContinue, ctx', h')
    /\ (shouldReplaceBody ctx' = true <->
        errorpages.IsErrorStatus status = Some true).
Proof.
  intros Hc Hs. unfold OnHttpResponseHeaders. rewrite Hs.
  destruct (IsErrorStatus_total status) as [[|] E]; rewrite E;
    cbn [mbind option_bind]; do 2 eexists; (split; [reflexivity|]).
  - cbn [shouldReplaceBody]. tauto.
  - rewrite Hc. split; discriminate.
Qed.

End ResponseBody.

(** ** The loops finish within their fuel *)

Section Termination.
Import GoStrings.

Lemma Index_bound (s sub : string) :
  Index s sub <> -1 -> 0 <= Index s sub /\ Index s sub + len sub <= len s.
Proof.
  intros H. destruct (Index_found _ _ H) as (n & E & ->).
  apply index_nat_bound in E. unfold len. lia.
Qed.

Lemma len_sliceFrom (s : string) (lo : Z) :
  0 <= lo <= len s -> len (sliceFrom s lo) = len s - lo.
Proof.
  intros H. unfold sliceFrom, len in *. rewrite str_length_skipn. lia.
Qed.

Lemma len_sliceFrom_le (s : string) (lo : Z) : len (sliceFrom s lo) <= len s.
Proof. unfold sliceFrom, len. rewrite str_length_skipn. lia. Qed.

Lemma len_sliceTo (s : string) (hi : Z) :
  0 <= hi <= len s -> len (sliceTo s hi) = hi.
Proof.
  intros H. unfold sliceTo, len in *. rewrite str_length_firstn. lia.
Qed.

Lemma len_slice (s : string) (lo hi : Z) :
  0 <= lo <= hi -> hi <= len s -> len (slice s lo hi) = hi - lo.
Proof.
  intros H1 H2. unfold slice, len in *.
  rewrite str_length_firstn, str_length_skipn. lia.
Qed.

(** *** [TrimSpace] *)

Lemma trimLeftSpace_done (n : nat) (s : string) :
  (String.length s <= n)%nat -> space_width (trimLeftSpace n s) = 0%nat.
Proof.
  revert s. induction n as [|n IH]; intros s H.
  - destruct s; [reflexivity | simpl in H; lia].
  - cbn [trimLeftSpace]. destruct (space_width s) as [|w] eqn:E; [exact E|].
    apply IH. rewrite str_length_skipn. lia.
Qed.

Lemma trimLeftSpace_rev_done (n : nat) (r : string) :
  (String.length r <= n)%nat ->
  space_width_rev (trimLeftSpace_rev n r) = 0%nat.
Proof.
  revert r. induction n as [|n IH]; intros r H.
  - destruct r; [reflexivity | simpl in H; lia].
  - cbn [trimLeftSpace_rev].
    destruct (space_width_rev r) as [|w] eqn:E; [exact E|].
    apply IH. rewrite str_length_skipn. lia.
Qed.

(** *** [containsOnlyDirectives] *)

Lemma directivesLoop_total (fuel : nat) (remaining : string) (found : bool) :
  (String.length remaining < fuel)%nat ->
  is_Some (errorpages_tmpl.directivesLoop fuel remaining found).
Proof.
  revert remaining found. induction fuel as [|k IH]; intros remaining found Hf;
    [lia|].
  cbn [errorpages_tmpl.directivesLoop].
  destruct (0 <? len remaining) eqn:E0; cbn [negb]; [|eauto].
  destruct (Index remaining "{{" =? -1) eqn:E1; [eauto|].
  destruct (negb (String.eqb (TrimSpace (sliceTo remaining (Index remaining "{{"))) ""));
    [eauto|].
  destruct (Index (sliceFrom remaining (Index remaining "{{")) "}}" =? -1)
    eqn:E2; [eauto|].
  match goal with
  | |- context [if ?c then _ else _] => destruct c; [eauto|]
  end.
  apply IH. apply Z.eqb_neq, Index_bound in E1.
  apply Z.eqb_neq, Index_bound in E2.
  change (len "}}") with 2 in E2. change (len "{{") with 2 in E1.
  rewrite len_sliceFrom in E2 by lia.
  apply Z.ltb_lt in E0.
  match goal with
  | |- (String.length ?x < _)%nat =>
      assert (len x < Z.of_nat k);
        [rewrite len_sliceFrom by lia; unfold len in *; lia
        | unfold len in *; lia]
  end.
Qed.

Lemma containsOnlyDirectives_run (s : string) :
  TrimSpace s <> "" ->
  errorpages_tmpl.directivesLoop (S (String.length (TrimSpace s)))
    (TrimSpace s) false
  = Some (errorpages_tmpl.containsOnlyDirectives s).
Proof.
  intros H. unfold errorpages_tmpl.containsOnlyDirectives.
  apply String.eqb_neq in H. rewrite H.
  destruct (directivesLoop_total (S (String.length (TrimSpace s)))
              (TrimSpace s) false) as [b ->]; [lia | reflexivity].
Qed.

(** *** [processIfBlock] *)

Lemma findEnd_total (fuel : nat) (result pend : string)
    (searchPos nestLevel : Z) :
  pend <> "" -> 0 <= searchPos ->
  (Z.to_nat (len result - searchPos) < fuel)%nat ->
  is_Some (errorpages.findEnd fuel result pend searchPos nestLevel).
Proof.
  intros Hp. assert (Hl : 0 < len pend)
    by (destruct pend; [congruence | unfold len; simpl; lia]).
  revert searchPos nestLevel.
  induction fuel as [|k IH]; intros searchPos nestLevel H0 Hf; [lia|].
  cbn [errorpages.findEnd].
  destruct (searchPos <? len result) eqn:E; cbn [negb]; [|eauto].
  apply Z.ltb_lt in E.
  set (nextIfIdx := Index (sliceFrom result searchPos) errorpages.nestedIf).
  set (nextEndIdx := Index (sliceFrom result searchPos) pend).
  pose proof (Index_range (sliceFrom result searchPos) errorpages.nestedIf)
    as R1. fold nextIfIdx in R1.
  pose proof (Index_range (sliceFrom result searchPos) pend) as R2.
  fold nextEndIdx in R2.
  destruct (nextEndIdx =? -1) eqn:E1; cbn [negb andb].
  - destruct (nextIfIdx =? -1) eqn:E2; cbn [negb]; [eauto|].
    apply Z.eqb_neq in E2. apply IH; [unfold len; lia|].
    unfold len in *. simpl String.length. lia.
  - apply Z.eqb_neq in E1.
    destruct ((nextIfIdx =? -1) || (nextEndIdx <? nextIfIdx)) eqn:E3.
    + match goal with
      | |- context [negb ?c] => destruct c; cbn [negb]
      end.
      * apply IH; lia.
      * destruct (nestLevel - 1 =? 0); [eauto|]. apply IH; lia.
    + destruct (nextIfIdx =? -1) eqn:E2; [discriminate E3|]. cbn [negb].
      apply Z.eqb_neq in E2. apply IH; [unfold len; lia|].
      unfold len in *. simpl String.length. lia.
Qed.

Lemma findEnd_range (fuel : nat) (result pend : string)
    (searchPos nestLevel e : Z) :
  0 <= searchPos ->
  errorpages.findEnd fuel result pend searchPos nestLevel = Some e ->
  e <> -1 -> searchPos <= e /\ e + len pend <= len result.
Proof.
  pose proof (len_nonneg pend) as Hl.
  revert searchPos nestLevel.
  induction fuel as [|k IH]; intros searchPos nestLevel H0; [discriminate|].
  cbn [errorpages.findEnd].
  destruct (searchPos <? len result) eqn:E; cbn [negb];
    [|intros [= <-]; congruence].
  apply Z.ltb_lt in E.
  set (nextIfIdx := Index (sliceFrom result searchPos) errorpages.nestedIf).
  set (nextEndIdx := Index (sliceFrom result searchPos) pend).
  pose proof (Index_range (sliceFrom result searchPos) errorpages.nestedIf)
    as R1. fold nextIfIdx in R1.
  assert (R2 : nextEndIdx <> -1 ->
               0 <= nextEndIdx /\ searchPos + nextEndIdx + len pend <= len result).
  { intros Hn. apply Index_bound in Hn. fold nextEndIdx in Hn.
    rewrite len_sliceFrom in Hn by lia. lia. }
  assert (Hrec : forall sp nl, searchPos <= sp ->
            errorpages.findEnd k result pend sp nl = Some e ->
            e <> -1 -> searchPos <= e /\ e + len pend <= len result).
  { intros sp nl Hsp Hf He. destruct (IH sp nl ltac:(lia) Hf He). lia. }
  destruct (nextEndIdx =? -1) eqn:E1; cbn [negb andb].
  - destruct (nextIfIdx =? -1) eqn:E2; cbn [negb];
      [intros [= <-]; congruence|].
    apply Z.eqb_neq in E2. apply Hrec. unfold len. lia.
  - apply Z.eqb_neq in E1. specialize (R2 E1).
    destruct ((nextIfIdx =? -1) || (nextEndIdx <? nextIfIdx)) eqn:E3.
    + match goal with
      | |- context [negb ?c] => destruct c; cbn [negb]
      end.
      * apply Hrec. lia.
      * destruct (nestLevel - 1 =? 0); [intros [= <-] _; lia|].
        apply Hrec. lia.
    + destruct (nextIfIdx =? -1) eqn:E2; [discriminate E3|]. cbn [negb].
      apply Z.eqb_neq in E2. apply Hrec. unfold len. lia.
Qed.

Lemma scanPatterns_total (again : string -> option string)
    (result : string) (show : bool) (ps : list (string * string)) :
  Forall (fun p => p.1 <> "" /\ p.2 <> "") ps ->
  (forall r, (String.length r < String.length result)%nat -> is_Some (again r)) ->
  is_Some (errorpages.scanPatterns again result show ps).
Proof.
  intros Hps Hag. induction Hps as [|[pstart pend] ps [Hs He] _ IH];
    [cbn; eauto|].
  cbn [fst snd] in Hs, He. cbn [errorpages.scanPatterns].
  destruct (Index result pstart =? -1) eqn:E1; [exact IH|].
  apply Z.eqb_neq, Index_bound in E1.
  assert (Hls : 0 < len pstart)
    by (destruct pstart; [congruence | unfold len; simpl; lia]).
  assert (Hle : 0 < len pend)
    by (destruct pend; [congruence | unfold len; simpl; lia]).
  destruct (findEnd_total (S (String.length result)) result pend
              (Index result pstart + len pstart) 1 He)
    as [e Ee]; [lia | unfold len in *; lia|].
  rewrite Ee. destruct (e =? -1) eqn:E2; [exact IH|].
  apply Z.eqb_neq in E2.
  destruct (findEnd_range (S (String.length result)) result pend
              (Index result pstart + len pstart) 1 e ltac:(lia) Ee E2)
    as [R1 R2].
  destruct show; apply Hag.
  - apply Nat2Z.inj_lt. fold (len result).
    match goal with |- Z.of_nat (String.length ?x) < _ => fold (len x) end.
    rewrite !len_app, len_sliceTo, len_slice, len_sliceFrom by lia. lia.
  - apply Nat2Z.inj_lt. fold (len result).
    match goal with |- Z.of_nat (String.length ?x) < _ => fold (len x) end.
    rewrite !len_app, len_sliceTo, len_sliceFrom by lia. lia.
Qed.

Lemma patterns_nonempty (condition : string) :
  Forall (fun p => p.1 <> "" /\ p.2 <> "") (errorpages.patterns condition).
Proof. unfold errorpages.patterns. repeat constructor; discriminate. Qed.

Lemma processIfBlock_fuel_total (fuel : nat) (template condition : string)
    (show : bool) :
  (String.length template < fuel)%nat ->
  is_Some (errorpages.processIfBlock_fuel fuel template condition show).
Proof.
  revert template. induction fuel as [|k IH]; intros template Hf; [lia|].
  cbn [errorpages.processIfBlock_fuel].
  apply scanPatterns_total; [apply patterns_nonempty|].
  intros r Hr. apply IH. lia.
Qed.

(** [processIfBlock] is the result of the recursion; its fuel never
    runs out. *)
Lemma processIfBlock_run (template condition : string) (show : bool) :
  errorpages.processIfBlock_fuel (S (String.length template)) template
    condition show
  = Some (errorpages.processIfBlock template condition show).
Proof.
  unfold errorpages.processIfBlock.
  destruct (processIfBlock_fuel_total (S (String.length template)) template
              condition show) as [r ->]; [lia | reflexivity].
Qed.

End Termination.

(* ================================================================== *)
(** * Part III: further properties of the code                         *)
(* ================================================================== *)

(** ** Themes and start of the plugin *)

Section Themes.
Import GoStrings templates.

Lemma sliceTo_sliceFrom (s : string) (k : Z) : sliceTo s k +:+ sliceFrom s k = s.
Proof. unfold sliceTo, sliceFrom. apply str_firstn_skipn. Qed.

Lemma HasSuffix_app (s suffix : string) : HasSuffix (s +:+ suffix) suffix = true.
Proof.
  unfold HasSuffix. rewrite len_app.
  replace (len s + len suffix - len suffix) with (len s) by lia.
  rewrite sliceFrom_app, String.eqb_refl.
  pose proof (len_nonneg s). apply andb_true_iff. split; [|reflexivity].
  apply Z.leb_le. lia.
Qed.

(** The file that [GetTemplate] reads. *)
Lemma GetTemplate_file (fsys : FS) (theme : string) :
  GetTemplate fsys theme =
  match ReadFile fsys
          (if HasSuffix theme ".html" then theme else theme +:+ ".html") with
  | inr err => inr (NotFound theme err)
  | inl data => inl data
  end.
Proof.
  unfold GetTemplate, HasSuffix. change (len ".html") with 5.
  destruct (len theme <? 5) eqn:E1.
  - apply Z.ltb_lt in E1.
    replace (5 <=? len theme) with false by (symmetry; apply Z.leb_gt; lia).
    reflexivity.
  - apply Z.ltb_ge in E1.
    replace (5 <=? len theme) with true by (symmetry; apply Z.leb_le; lia).
    cbn [orb andb].
    now destruct (String.eqb (sliceFrom theme (len theme - 5)) ".html").
Qed.

(** X1: the [.html] suffix of a theme is optional. For a theme that does
    not end in [.html], [GetTemplate] returns the same bytes with and
    without the suffix. *)
Theorem GetTemplate_suffix_optional (fsys : FS) (theme data : string)
    (H : HasSuffix theme ".html" = false) :
  GetTemplate fsys theme = inl data
  <-> GetTemplate fsys (theme +:+ ".html") = inl data.
Proof.
  rewrite !GetTemplate_file, H, HasSuffix_app.
  destruct (ReadFile fsys (theme +:+ ".html")); split; congruence.
Qed.

Lemma GetTemplate_suffix_optional_witness :
  GetTemplate (spec.flatFS [("cats.html", "<html>cats</html>")]) "cats"
  = inl "<html>cats</html>".
Proof.
  apply (GetTemplate_suffix_optional
           (spec.flatFS [("cats.html", "<html>cats</html>")]) "cats");
    reflexivity.
Defined.

Lemma collectNames_In (entries : list DirEntry) (name : string) :
  In name (collectNames entries) ->
  exists e, In e entries /\ IsDir e = false /\ Name e = name +:+ ".html".
Proof.
  induction entries as [|e rest IH]; cbn [collectNames]; [intros []|].
  destruct (negb (IsDir e) && (5 <? len (Name e))
            && String.eqb (sliceFrom (Name e) (len (Name e) - 5)) ".html")
    eqn:E.
  - intros [<-|H].
    + apply andb_true_iff in E as [E E3]. apply andb_true_iff in E as [E1 E2].
      exists e. split; [now left|]. split; [now destruct (IsDir e)|].
      apply String.eqb_eq in E3.
      rewrite <- (sliceTo_sliceFrom (Name e) (len (Name e) - 5)) at 1.
      now rewrite E3.
    + destruct (IH H) as (e' & H1 & H2). exists e'. split; [now right | exact H2].
  - intros H. destruct (IH H) as (e' & H1 & H2).
    exists e'. split; [now right | exact H2].
Qed.

(** X2: every theme that [GetTemplateNames] lists can be loaded with
    [GetTemplate], which then returns the bytes of the listed file,
    unless the listed name itself ends in [.html] (a file named
    [x.html.html]): [GetTemplate] then reads [x.html] instead. *)
Theorem listed_theme_loads (fsys : FS) (names : list string) (name : string)
    (Hfs : spec.listedFilesReadable fsys)
    (Hnames : GetTemplateNames fsys = inl names)
    (Hin : In name names)
    (Hplain : HasSuffix name ".html" = false) :
  exists data,
    GetTemplate fsys name = inl data
    /\ ReadFile fsys (name +:+ ".html") = inl data.
Proof.
  unfold GetTemplateNames in Hnames.
  destruct (ReadDir fsys) as [entries|err] eqn:Ed; [|discriminate].
  injection Hnames as <-.
  destruct (collectNames_In _ _ Hin) as (e & He & Hd & Hn).
  destruct (Hfs entries e Ed He Hd) as [data Hr]. rewrite Hn in Hr.
  exists data. split; [|exact Hr].
  now rewrite GetTemplate_file, Hplain, Hr.
Qed.

Lemma flatFS_readable (files : list (string * string)) :
  NoDup (map fst files) -> spec.listedFilesReadable (spec.flatFS files).
Proof.
  intros _ entries e [= <-] He _. cbn [ReadFile spec.flatFS].
  apply in_map_iff in He as ([n d] & <- & Hf). cbn [Name fst].
  destruct (List.find (fun f => String.eqb f.1 n) files) as [f|] eqn:E; [eauto|].
  exfalso. apply (find_none _ _ E) in Hf. cbn [fst] in Hf.
  now rewrite String.eqb_refl in Hf.
Qed.

Lemma listed_theme_loads_witness :
  exists data,
    GetTemplate
      (spec.flatFS [("app-down.html", "<p>down</p>"); ("cats.html", "<p>cat</p>")])
      "cats" = inl data
    /\ ReadFile
         (spec.flatFS [("app-down.html", "<p>down</p>"); ("cats.html", "<p>cat</p>")])
         ("cats" +:+ ".html") = inl data.
Proof.
  apply (listed_theme_loads
           (spec.flatFS [("app-down.html", "<p>down</p>"); ("cats.html", "<p>cat</p>")])
           ["app-down"; "cats"] "cats").
  - apply flatFS_readable. apply (bool_decide_unpack _). vm_compute. exact I.
  - reflexivity.
  - right. now left.
  - reflexivity.
Defined.

(** The edge that the hypothesis excludes. *)
Example listed_theme_double_suffix :
  GetTemplateNames (spec.flatFS [("x.html.html", "<p>x</p>")]) = inl ["x.html"]
  /\ GetTemplate (spec.flatFS [("x.html.html", "<p>x</p>")]) "x.html"
     = inr (NotFound "x.html" "file does not exist").
Proof. split; reflexivity. Qed.

End Themes.

Section Startup.
Import startup.

(** X3: [OnPluginStart] never panics, and it fails exactly when neither
    the configured theme nor [app-down] can be read. When it succeeds the
    handler holds the bytes of the configured theme, or those of
    [app-down] when the theme is missing, and the theme of the
    configuration is then set to [app-down]; [show_details] is kept. *)
Theorem OnPluginStart_fallback (version configYAML : string)
    (fsys : templates.FS) :
  exists cfg st,
    config.Parse configYAML = (Some cfg, None)
    /\ OnPluginStart version configYAML fsys = Some st
    /\ match templates.GetTemplate fsys (config.Theme cfg),
             templates.GetTemplate fsys "app-down" with
       | inl data, _ =>
           status st = OnPluginStartStatusOK
           /\ pluginConfig st = Some cfg
           /\ errorPageHandler st = Some (errorpages.mkHandler data version)
       | inr _, inl data =>
           status st = OnPluginStartStatusOK
           /\ pluginConfig st
              = Some (config.mkConfig "app-down" (config.ShowDetails cfg))
           /\ errorPageHandler st = Some (errorpages.mkHandler data version)
       | inr _, inr _ =>
           status st = OnPluginStartStatusFailed
           /\ errorPageHandler st = None
       end.
Proof.
  unfold OnPluginStart. cbn [config.Parse].
  eexists. 
  destruct (templates.GetTemplate fsys
              (config.Theme
                 (fold_left config.parseLine (GoStrings.Split configYAML nl)
                    (config.mkConfig "cats" true)))) as [d|e] eqn:E1.
  - eexists. split; [reflexivity|]. split; [reflexivity|].
    rewrite E1. cbn. auto.
  - destruct (templates.GetTemplate fsys "app-down") as [d|e2] eqn:E2;
      eexists; (split; [reflexivity|]); (split; [reflexivity|]);
      rewrite E1, ?E2; cbn; auto.
Qed.

End Startup.

(** ** The HTTP exchange *)

Section Exchange.
Import GoStrings plugin.

Lemma filter_filter {A : Type} (f g : A -> bool) (l : list A) :
  List.filter g (List.filter f l) = List.filter (fun x => f x && g x) l.
Proof.
  induction l as [|x l IH]; [reflexivity|]. cbn [List.filter].
  destruct (f x); cbn [List.filter andb]; [|exact IH].
  destruct (g x); now rewrite IH.
Qed.

Lemma filter_none {A : Type} (l : list A) :
  List.filter (fun _ => false) l = [].
Proof. induction l as [|x l IH]; [reflexivity | exact IH]. Qed.

Lemma find_app_none {A : Type} (f : A -> bool) (l1 l2 : list A) :
  List.find f l1 = None -> List.find f (l1 ++ l2) = List.find f l2.
Proof.
  induction l1 as [|x l1 IH]; [reflexivity|]. cbn [List.find app].
  destruct (f x); [discriminate | exact IH].
Qed.

Lemma find_app_some {A : Type} (f : A -> bool) (l1 l2 : list A) (x : A) :
  List.find f l1 = Some x -> List.find f (l1 ++ l2) = Some x.
Proof.
  induction l1 as [|y l1 IH]; [discriminate|]. cbn [List.find app].
  destruct (f y); [trivial | exact IH].
Qed.

Lemma find_filter_keep {A : Type} (f p : A -> bool) (l : list A) :
  (forall x, f x = true -> p x = true) ->
  List.find f (List.filter p l) = List.find f l.
Proof.
  intros H. induction l as [|x l IH]; [reflexivity|]. cbn [List.filter List.find].
  destruct (f x) eqn:Ef.
  - rewrite (H x Ef). cbn [List.find]. now rewrite Ef.
  - destruct (p x); cbn [List.find]; rewrite ?Ef; exact IH.
Qed.

Lemma find_filter_drop {A : Type} (f p : A -> bool) (l : list A) :
  (forall x, f x = true -> p x = false) ->
  List.find f (List.filter p l) = None.
Proof.
  intros H. induction l as [|x l IH]; [reflexivity|]. cbn [List.filter].
  destruct (p x) eqn:Ep; [|exact IH]. cbn [List.find].
  destruct (f x) eqn:Ef; [|exact IH]. rewrite (H x Ef) in Ep. discriminate.
Qed.

(** What the response-header phase does to an error response. *)
Lemma OnHttpResponseHeaders_intercept (ctx : httpContext) (n : Z) (eos : bool)
    (h : Host) (status : string) :
  GetHttpResponseHeader ":status" h = inl status ->
  errorpages.IsErrorStatus status = Some true ->
  exists h',
    OnHttpResponseHeaders ctx n eos h
    = Some (ActionContinue,
            mkHttpContext true status (host ctx) (originalURI ctx)
              (forwardedFor ctx) (requestID ctx), h')
    /\ responseHeaders h'
       = List.filter (fun kv => negb (spec.replacedHeader kv.1))
           (responseHeaders h)
         ++ [("content-type", "text/html; charset=utf-8")]
    /\ responseBody h' = responseBody h
    /\ acceptsBodyReplace h' = acceptsBodyReplace h
    /\ requestHeaders h' = requestHeaders h.
Proof.
  intros Hs He. unfold OnHttpResponseHeaders. rewrite Hs, He.
  cbn [mbind option_bind]. eexists. split; [reflexivity|].
  unfold AddHttpResponseHeader, RemoveHttpResponseHeader, setResponseHeaders,
    log.
  cbn [responseHeaders responseBody acceptsBodyReplace requestHeaders].
  repeat split. rewrite !filter_filter. f_equal.
  apply filter_ext. intros [k v]. unfold spec.replacedHeader. cbn [fst].
  now rewrite !negb_orb, !andb_assoc.
Qed.

(** X4: on a response classified as an error, the response-header phase
    leaves exactly one [content-type], the HTML one, and no
    [content-length] or [content-encoding]; every other response header
    reads as before, and the body is not touched in this phase. *)
Theorem intercepted_response_headers (ctx : httpContext) (n : Z) (eos : bool)
    (h : Host) (status : string)
    (Hstatus : GetHttpResponseHeader ":status" h = inl status)
    (Herr : errorpages.IsErrorStatus status = Some true) :
  exists ctx' h',
    OnHttpResponseHeaders ctx n eos h = Some (ActionContinue, ctx', h')
    /\ GetHttpResponseHeader "content-type" h'
       = inl "text/html; charset=utf-8"
    /\ List.filter (fun kv => spec.replacedHeader kv.1) (responseHeaders h')
       = [("content-type", "text/html; charset=utf-8")]
    /\ (forall key, spec.replacedHeader key = false ->
          GetHttpResponseHeader key h' = GetHttpResponseHeader key h)
    /\ responseBody h' = responseBody h.
Proof.
  destruct (OnHttpResponseHeaders_intercept ctx n eos h status Hstatus Herr)
    as (h' & E & Hh & Hb & _).
  do 2 eexists. split; [exact E|].
  unfold GetHttpResponseHeader, lookupHeader. rewrite Hh.
  split; [|split; [|split; [|exact Hb]]].
  - rewrite find_app_none; [reflexivity|].
    apply find_filter_drop. intros [k v]. cbn [fst]. intros Hk.
    apply String.eqb_eq in Hk. now subst k.
  - rewrite List.filter_app, filter_filter.
    rewrite (filter_ext _ (fun _ => false))
      by (intros [k v]; cbn [fst]; now destruct (spec.replacedHeader k)).
    now rewrite filter_none.
  - intros key Hk.
    assert (Hkeep : List.find (fun kv => String.eqb kv.1 key)
                      (List.filter (fun kv => negb (spec.replacedHeader kv.1))
                         (responseHeaders h))
                    = List.find (fun kv => String.eqb kv.1 key)
                        (responseHeaders h)).
    { apply find_filter_keep. intros [k v]. cbn [fst]. intros Hkv.
      apply String.eqb_eq in Hkv. subst k. now rewrite Hk. }
    destruct (List.find (fun kv => String.eqb kv.1 key) (responseHeaders h))
      as [kv|] eqn:Ef.
    + now rewrite (find_app_some _ _ _ _ Hkeep).
    + rewrite (find_app_none _ _ _ Hkeep). cbn [List.find fst].
      replace (String.eqb "content-type" key) with false; [reflexivity|].
      symmetry. apply String.eqb_neq. intros <-. discriminate Hk.
Qed.

Lemma intercepted_response_headers_witness :
  exists ctx' h',
    OnHttpResponseHeaders NewHttpContext 3 false
      (mkHost [] [(":status", "503"); ("content-type", "application/json");
                  ("content-length", "17"); ("server", "upstream")]
         "{}" true [])
    = Some (ActionContinue, ctx', h')
    /\ responseHeaders h'
       = [(":status", "503"); ("server", "upstream");
          ("content-type", "text/html; charset=utf-8")].
Proof.
  destruct (intercepted_response_headers NewHttpContext 3 false
              (mkHost [] [(":status", "503"); ("content-type", "application/json");
                          ("content-length", "17"); ("server", "upstream")]
                 "{}" true []) "503" eq_refl eq_refl)
    as (ctx' & h' & E & _).
  exists ctx', h'. split; [exact E|].
  vm_compute in E. injection E as _ <-. reflexivity.
Defined.

Lemma OnHttpRequestHeaders_keeps (ctx : httpContext) (n : Z) (eos : bool)
    (h : Host) :
  (OnHttpRequestHeaders ctx n eos h).1 = ActionContinue
  /\ shouldReplaceBody (OnHttpRequestHeaders ctx n eos h).2
     = shouldReplaceBody ctx
  /\ statusCode (OnHttpRequestHeaders ctx n eos h).2 = statusCode ctx.
Proof. repeat split. Qed.

(** X5: an exchange whose response is classified as an error. Both
    header phases return [ActionContinue], every chunk before the last
    is paused, and the page that replaces the body is rendered from the
    status of the response and from what the request headers held: the
    host from [:authority], else from [host], the path, the
    forwarded-for and the request id, each empty when the header is
    missing. *)
Theorem intercepted_exchange (g : Globals) (pre : list (Z * bool))
    (bodySize : Z) (h : Host) (status : string)
    (Hstatus : GetHttpResponseHeader ":status" h = inl status)
    (Herr : errorpages.IsErrorStatus status = Some true)
    (Hpre : spec.notLast pre) :
  exists ctx h',
    spec.exchange g (pre ++ [(bodySize, true)]) h
    = Some (ActionContinue :: ActionContinue
            :: repeat ActionPause (List.length pre) ++ [ActionContinue],
            ctx, h')
    /\ ctx = mkHttpContext true status
               (match GetHttpRequestHeader ":authority" h with
                | inl v => v
                | inr _ =>
                    match GetHttpRequestHeader "host" h with
                    | inl v => v
                    | inr _ => ""
                    end
                end)
               (match GetHttpRequestHeader ":path" h with
                | inl v => v | inr _ => "" end)
               (match GetHttpRequestHeader "x-forwarded-for" h with
                | inl v => v | inr _ => "" end)
               (match GetHttpRequestHeader "x-request-id" h with
                | inl v => v | inr _ => "" end)
    /\ responseBody h' =
       (if acceptsBodyReplace h then spec.errorPage g ctx
        else responseBody h).
Proof.
  unfold spec.exchange.
  destruct (OnHttpRequestHeaders NewHttpContext 0 false h) as [a1 ctx1] eqn:E1.
  unfold OnHttpRequestHeaders in E1. injection E1 as <- <-.
  cbn [NewHttpContext host originalURI forwardedFor requestID
         shouldReplaceBody statusCode].
  match goal with
  | |- context [OnHttpResponseHeaders ?c 0 false h] =>
      destruct (OnHttpResponseHeaders_intercept c 0 false h status Hstatus Herr)
        as (h2 & E2 & _ & Hb2 & Ha2 & _);
      rewrite E2
  end.
  cbn [host originalURI forwardedFor requestID].
  match goal with
  | |- context [deliver g ?c _ h2] =>
      rewrite (deliver_paused g c pre [(bodySize, true)] h2 eq_refl Hpre);
      cbn [deliver];
      destruct (OnHttpResponseBody_end g c bodySize h2 eq_refl)
        as (h3 & E3 & Hb3 & _);
      rewrite E3
  end.
  cbn [fst snd]. do 2 eexists. split; [reflexivity|]. split; [reflexivity|].
  now rewrite Hb3, Ha2, Hb2.
Qed.

Lemma intercepted_exchange_witness :
  exists ctx h',
    spec.exchange
      (mkGlobals
         (errorpages.mkHandler "{{ code }} {{ host }}{{ original_uri }}" "dev")
         (config.mkConfig "cats" true) 1700000000 errorpages.sourceOrder)
      ([(10, false); (20, false)] ++ [(5, true)])
      (mkHost [("host", "example.com"); (":path", "/missing")]
         [(":status", "500")] "upstream" true [])
    = Some ([ActionContinue; ActionContinue; ActionPause; ActionPause;
             ActionContinue], ctx, h')
    /\ responseBody h' = "500 example.com/missing".
Proof.
  destruct (intercepted_exchange
              (mkGlobals
                 (errorpages.mkHandler
                    "{{ code }} {{ host }}{{ original_uri }}" "dev")
                 (config.mkConfig "cats" true) 1700000000
                 errorpages.sourceOrder)
              [(10, false); (20, false)] 5
              (mkHost [("host", "example.com"); (":path", "/missing")]
                 [(":status", "500")] "upstream" true [])
              "500" eq_refl eq_refl ltac:(repeat constructor))
    as (ctx & h' & E & -> & Hb).
  do 2 eexists. split; [exact E|]. rewrite Hb. vm_compute. reflexivity.
Defined.

(** X6: an exchange whose response has no readable status, or a status
    that is not classified as an error, passes through: every phase
    returns [ActionContinue], and the response headers and the body are
    the ones the host had. *)
Theorem pass_through_exchange (g : Globals) (chunks : list (Z * bool))
    (h : Host)
    (Hok : match GetHttpResponseHeader ":status" h with
           | inl status => errorpages.IsErrorStatus status = Some false
           | inr _ => True
           end) :
  exists ctx h',
    spec.exchange g chunks h
    = Some (repeat ActionContinue (2 + List.length chunks), ctx, h')
    /\ shouldReplaceBody ctx = false
    /\ responseHeaders h' = responseHeaders h
    /\ responseBody h' = responseBody h.
Proof.
  unfold spec.exchange.
  destruct (OnHttpRequestHeaders NewHttpContext 0 false h) as [a1 ctx1] eqn:E1.
  unfold OnHttpRequestHeaders in E1. injection E1 as <- <-.
  unfold OnHttpResponseHeaders.
  destruct (GetHttpResponseHeader ":status" h) as [status|err].
  - rewrite Hok. cbn [mbind option_bind].
    rewrite deliver_pass_through by reflexivity.
    do 2 eexists. split; [reflexivity|]. repeat split.
  - rewrite deliver_pass_through by reflexivity.
    do 2 eexists. split; [reflexivity|]. repeat split.
Qed.

Lemma pass_through_exchange_witness :
  exists ctx h',
    spec.exchange
      (mkGlobals (errorpages.mkHandler "{{ code }}" "dev")
         (config.mkConfig "cats" true) 1700000000 errorpages.sourceOrder)
      [(4, false); (2, true)]
      (mkHost [("host", "example.com")]
         [(":status", "200"); ("content-length", "6")] "hello!" true [])
    = Some ([ActionContinue; ActionContinue; ActionContinue; ActionContinue],
            ctx, h')
    /\ shouldReplaceBody ctx = false
    /\ responseHeaders h' = [(":status", "200"); ("content-length", "6")]
    /\ responseBody h' = "hello!".
Proof.
  apply (pass_through_exchange
           (mkGlobals (errorpages.mkHandler "{{ code }}" "dev")
              (config.mkConfig "cats" true) 1700000000 errorpages.sourceOrder)
           [(4, false); (2, true)]
           (mkHost [("host", "example.com")]
              [(":status", "200"); ("content-length", "6")] "hello!" true [])).
  reflexivity.
Defined.

End Exchange.

(** ** Escaping, defaults and the status code *)

Section Rendering.
Import GoStrings errorpages.

Lemma htmlEscape_substBytes (s : string) :
  htmlEscape s = spec.substBytes spec.escapeByte s.
Proof.
  unfold htmlEscape, escapeTable, dq. cbn [fold_left fst snd].
  rewrite !ReplaceAll_byte, !substBytes_compose.
  apply substBytes_ext. intros c.
  rewrite <- (escape_rules_compose c), !substBytes_compose.
  reflexivity.
Qed.

Lemma escapeByte_plain (c : ascii) :
  spec.isSpecial c = false -> spec.escapeByte c = String c "".
Proof. destruct c as [[] [] [] [] [] [] [] []]; vm_compute; congruence. Qed.

Lemma escapeByte_longer (c : ascii) :
  spec.isSpecial c = true -> (1 < String.length (spec.escapeByte c))%nat.
Proof.
  destruct c as [[] [] [] [] [] [] [] []]; vm_compute; try congruence;
    intros _; repeat constructor.
Qed.

Lemma escapeByte_nonempty (c : ascii) :
  (1 <= String.length (spec.escapeByte c))%nat.
Proof.
  destruct (spec.isSpecial c) eqn:E.
  - apply escapeByte_longer in E. lia.
  - now rewrite (escapeByte_plain c E).
Qed.

Lemma escapeByte_special (c : ascii) :
  spec.allBytes (fun b => negb (spec.isSpecial b)) (spec.escapeByte c)
  = negb (spec.isSpecial c).
Proof. destruct c as [[] [] [] [] [] [] [] []]; vm_compute; reflexivity. Qed.

Lemma escapeBytes_length (s : string) :
  (String.length s <= String.length (spec.substBytes spec.escapeByte s))%nat
  /\ (String.length (spec.substBytes spec.escapeByte s) = String.length s ->
      spec.allBytes (fun b => negb (spec.isSpecial b)) s = true).
Proof.
  induction s as [|c s [IH1 IH2]]; [split; [simpl; lia | reflexivity]|].
  cbn [spec.substBytes spec.allBytes]. rewrite str_length_app.
  pose proof (escapeByte_nonempty c) as H1. cbn [String.length].
  split; [lia|]. intros H.
  destruct (spec.isSpecial c) eqn:E.
  - apply escapeByte_longer in E. lia.
  - rewrite IH2; [reflexivity|]. rewrite (escapeByte_plain c E) in H.
    simpl in H. lia.
Qed.

Lemma escapeBytes_plain (s : string) :
  spec.allBytes (fun b => negb (spec.isSpecial b)) s = true ->
  spec.substBytes spec.escapeByte s = s.
Proof.
  induction s as [|c s IH]; [reflexivity|]. cbn [spec.allBytes spec.substBytes].
  intros H. apply andb_true_iff in H as [H1 H2].
  apply negb_true_iff in H1. now rewrite (escapeByte_plain c H1), IH.
Qed.

Lemma escapeBytes_special (s : string) :
  spec.allBytes (fun b => negb (spec.isSpecial b))
    (spec.substBytes spec.escapeByte s)
  = spec.allBytes (fun b => negb (spec.isSpecial b)) s.
Proof.
  induction s as [|c s IH]; [reflexivity|]. cbn [spec.allBytes spec.substBytes].
  now rewrite allBytes_app, escapeByte_special, IH.
Qed.

(** X7: [htmlEscape] never shortens a text; it returns the text
    unchanged exactly when the text holds none of [&], [<], [>], the
    double quote and [']; and escaping a second time changes every text
    that needed escaping (the ampersands of the first pass are escaped
    again). *)
Theorem htmlEscape_fixed_points (s : string) :
  (String.length s <= String.length (htmlEscape s))%nat
  /\ (htmlEscape s = s <->
      spec.allBytes (fun b => negb (spec.isSpecial b)) s = true)
  /\ (htmlEscape (htmlEscape s) = htmlEscape s <->
      spec.allBytes (fun b => negb (spec.isSpecial b)) s = true).
Proof.
  assert (F : forall t, htmlEscape t = t <->
                spec.allBytes (fun b => negb (spec.isSpecial b)) t = true).
  { intros t. rewrite htmlEscape_substBytes. split.
    - intros H. apply escapeBytes_length. now rewrite H.
    - apply escapeBytes_plain. }
  split; [rewrite htmlEscape_substBytes; apply escapeBytes_length|].
  split; [apply F|].
  rewrite F, htmlEscape_substBytes. now rewrite escapeBytes_special.
Qed.

Example htmlEscape_twice :
  htmlEscape (htmlEscape "a<b") = "a&amp;lt;b".
Proof. reflexivity. Qed.

(** *** Defaults *)

Lemma messageEntries_nonempty :
  Forall (fun e => e.2 <> "") messageEntries.
Proof. unfold messageEntries. repeat constructor; discriminate. Qed.

Lemma descriptionEntries_nonempty :
  Forall (fun e => e.2 <> "") descriptionEntries.
Proof. unfold descriptionEntries. repeat constructor; discriminate. Qed.

Lemma getStatusMessage_nonempty (code : Z) : getStatusMessage code <> "".
Proof.
  unfold getStatusMessage, messages.
  destruct (list_to_map messageEntries !! code) as [msg|] eqn:E.
  - apply elem_of_list_to_map_2 in E.
    pose proof messageEntries_nonempty as H. rewrite Forall_forall in H.
    apply (H _ E).
  - destruct ((400 <=? code) && (code <? 500)); discriminate.
Qed.

Lemma getStatusDescription_nonempty (code : Z) :
  getStatusDescription code <> "".
Proof.
  unfold getStatusDescription, descriptions.
  destruct (list_to_map descriptionEntries !! code) as [d|] eqn:E.
  - apply elem_of_list_to_map_2 in E.
    pose proof descriptionEntries_nonempty as H. rewrite Forall_forall in H.
    apply (H _ E).
  - destruct ((400 <=? code) && (code <? 500)); discriminate.
Qed.

(** X8: after the defaults of [RenderErrorPage] the message and the
    description are never empty: a text given by the caller is kept, an
    empty one is replaced by the catalog text of the code. A timestamp
    other than 0 is kept, and 0 is replaced by the clock. No other field
    changes. *)
Theorem applyDefaults_fills (now : Z) (data : TemplateData) :
  let d := applyDefaults now data in
  Message d <> "" /\ Description d <> ""
  /\ Message d = (if String.eqb (Message data) ""
                  then getStatusMessage (Code data) else Message data)
  /\ Description d = (if String.eqb (Description data) ""
                      then getStatusDescription (Code data)
                      else Description data)
  /\ NowUnix d = (if NowUnix data =? 0 then now else NowUnix data)
  /\ (Code d, ShowDetails d, Host d, OriginalURI d, ForwardedFor d,
      RequestID d, L10nEnabled d, L10nScript d)
     = (Code data, ShowDetails data, Host data, OriginalURI data,
        ForwardedFor data, RequestID data, L10nEnabled data, L10nScript data).
Proof.
  unfold applyDefaults, setNowUnix, setMessage, setDescription.
  destruct data as [code msg desc sd ho ou ff ri nu le ls].
  cbn -[getStatusMessage getStatusDescription String.eqb Z.eqb].
  destruct (nu =? 0);
    cbn -[getStatusMessage getStatusDescription String.eqb Z.eqb];
    destruct (String.eqb msg "") eqn:Em;
    cbn -[getStatusMessage getStatusDescription String.eqb Z.eqb];
    destruct (String.eqb desc "") eqn:Ed;
    cbn -[getStatusMessage getStatusDescription String.eqb Z.eqb];
    repeat split;
    try apply getStatusMessage_nonempty;
    try apply getStatusDescription_nonempty;
    try (now apply String.eqb_neq).
Qed.

(** *** The status code *)

Lemma isDigit_cases (c : ascii) :
  spec.isDigit c = true ->
  In c ["0"; "1"; "2"; "3"; "4"; "5"; "6"; "7"; "8"; "9"]%char.
Proof.
  destruct c as [[] [] [] [] [] [] [] []]; vm_compute; intros H;
    try discriminate H; tauto.
Qed.

(** X9: for a status that is classified as an error and is made of three
    decimal digits, the digit loop of [OnHttpResponseBody] yields a code
    between 400 and 599, and the page shows the status as it was
    received: printing the code gives the status text back. *)
Theorem parseStatusCode_round_trip (status : string)
    (Herr : IsErrorStatus status = Some true)
    (Hdigits : spec.threeDecimalDigits status = true) :
  400 <= plugin.parseStatusCode status <= 599
  /\ strconv.Itoa (plugin.parseStatusCode status) = status.
Proof.
  rewrite IsErrorStatus_cases in Herr.
  destruct status as [|a [|b [|c [|d s]]]]; try discriminate.
  injection Herr as Ha. cbn [spec.threeDecimalDigits] in Hdigits.
  apply andb_true_iff in Hdigits as [Hd Hc].
  apply andb_true_iff in Hd as [_ Hb].
  apply isDigit_cases in Hb, Hc.
  apply orb_true_iff in Ha as [Ha|Ha]; apply Ascii.eqb_eq in Ha; subst a;
    cbn [In] in Hb, Hc;
    repeat match goal with
           | H : _ \/ _ |- _ => destruct H as [H|H]
           | H : False |- _ => destruct H
           end; subst; vm_compute; (split; [split; discriminate | reflexivity]).
Qed.

Lemma parseStatusCode_round_trip_witness :
  400 <= plugin.parseStatusCode "503" <= 599
  /\ strconv.Itoa (plugin.parseStatusCode "503") = "503".
Proof.
  apply (parseStatusCode_round_trip "503"); reflexivity.
Defined.

Lemma keepBytes_list (P : ascii -> bool) (s : string) :
  list_ascii_of_string (spec.keepBytes P s)
  = List.filter P (list_ascii_of_string s).
Proof.
  induction s as [|c s IH]; [reflexivity|].
  cbn [spec.keepBytes list_ascii_of_string List.filter].
  destruct (P c); cbn [list_ascii_of_string]; now rewrite IH.
Qed.

(** X10: bytes that are not decimal digits have no effect on the parsed
    status code: the code of a status text is the code of its digits
    alone, and a text without digits gives 0. *)
Theorem parseStatusCode_skips_non_digits (status : string) :
  plugin.parseStatusCode status
  = plugin.parseStatusCode (spec.keepBytes spec.isDigit status)
  /\ (spec.keepBytes spec.isDigit status = "" ->
      plugin.parseStatusCode status = 0).
Proof.
  assert (E : plugin.parseStatusCode status
              = plugin.parseStatusCode (spec.keepBytes spec.isDigit status)).
  { unfold plugin.parseStatusCode. rewrite keepBytes_list.
    generalize 0. induction (list_ascii_of_string status) as [|c l IH];
      intros acc; [reflexivity|].
    cbn [fold_left List.filter].
    change ((utf8.byte_val "0" <=? utf8.byte_val c)
            && (utf8.byte_val c <=? utf8.byte_val "9"))
      with (spec.isDigit c).
    destruct (spec.isDigit c) eqn:Ec; [|apply IH].
    cbn [fold_left].
    change ((utf8.byte_val "0" <=? utf8.byte_val c)
            && (utf8.byte_val c <=? utf8.byte_val "9"))
      with (spec.isDigit c).
    rewrite Ec. apply IH. }
  split; [exact E|]. intros H. now rewrite E, H.
Qed.

Example parseStatusCode_4xx : plugin.parseStatusCode "4xx" = 4.
Proof. reflexivity. Qed.

End Rendering.

(** ** Conditional blocks *)

Section IfBlocks.
Import GoStrings errorpages.

(** One run of the loop over the comment styles either finds nothing to
    rewrite, or hands a strictly shorter text to the recursive call. *)
Lemma scanPatterns_cases (again : string -> option string)
    (result : string) (show : bool) (ps : list (string * string))
    (r : string) :
  Forall (fun p => p.1 <> "" /\ p.2 <> "") ps ->
  scanPatterns again result show ps = Some r ->
  (r = result
   /\ forall again', scanPatterns again' result show ps = Some result)
  \/ (exists r', (String.length r' < String.length result)%nat
                 /\ again r' = Some r
                 /\ forall again', scanPatterns again' result show ps
                                   = again' r').
Proof.
  intros Hps. induction Hps as [|[pstart pend] ps [Hs He] _ IH].
  - cbn. intros [= <-]. left. auto.
  - cbn [fst snd] in Hs, He. cbn [scanPatterns].
    destruct (Index result pstart =? -1) eqn:E1; [exact IH|].
    apply Z.eqb_neq, Index_bound in E1.
    assert (Hls : 0 < len pstart)
      by (destruct pstart; [congruence | unfold len; simpl; lia]).
    assert (Hle : 0 < len pend)
      by (destruct pend; [congruence | unfold len; simpl; lia]).
    destruct (findEnd (S (String.length result)) result pend
                (Index result pstart + len pstart) 1) as [e|] eqn:Ee;
      [|discriminate].
    destruct (e =? -1) eqn:E2; [exact IH|].
    apply Z.eqb_neq in E2.
    destruct (findEnd_range (S (String.length result)) result pend
                (Index result pstart + len pstart) 1 e ltac:(lia) Ee E2)
      as [R1 R2].
    intros H. right.
    destruct show; eexists; (split; [|split; [exact H | reflexivity]]).
    + apply Nat2Z.inj_lt. fold (len result).
      match goal with |- Z.of_nat (String.length ?x) < _ => fold (len x) end.
      rewrite !len_app, len_sliceTo, len_slice, len_sliceFrom by lia. lia.
    + apply Nat2Z.inj_lt. fold (len result).
      match goal with |- Z.of_nat (String.length ?x) < _ => fold (len x) end.
      rewrite !len_app, len_sliceTo, len_sliceFrom by lia. lia.
Qed.

Lemma processIfBlock_fuel_stable (fuel : nat) (t condition r : string)
    (show : bool) :
  processIfBlock_fuel fuel t condition show = Some r ->
  (String.length r <= String.length t)%nat
  /\ (r = t \/ (String.length r < String.length t)%nat)
  /\ forall n, processIfBlock_fuel (S n) r condition show = Some r.
Proof.
  revert t. induction fuel as [|k IH]; intros t H; [discriminate|].
  cbn [processIfBlock_fuel] in H.
  destruct (scanPatterns_cases _ _ _ _ _ (patterns_nonempty condition) H)
    as [[-> H']|(r' & Hl & H' & _)]; clear H; rename H' into H.
  - split; [lia|]. split; [now left|]. intros n. cbn [processIfBlock_fuel].
    apply H.
  - destruct (IH r' H) as (H1 & H2 & H3).
    split; [lia|]. split; [right; lia | exact H3].
Qed.

(** X11: the result of [processIfBlock] is stable: running it again on
    its own output, for the same condition and flag, changes nothing. *)
Theorem processIfBlock_idempotent (t condition : string) (show : bool) :
  processIfBlock (processIfBlock t condition show) condition show
  = processIfBlock t condition show.
Proof.
  pose proof (processIfBlock_run t condition show) as H.
  apply processIfBlock_fuel_stable in H as (_ & _ & H).
  unfold processIfBlock at 1. now rewrite H.
Qed.

(** X12: [processIfBlock] only removes text: its result is the input
    itself or a strictly shorter text. *)
Theorem processIfBlock_shrinks (t condition : string) (show : bool) :
  processIfBlock t condition show = t
  \/ (String.length (processIfBlock t condition show) < String.length t)%nat.
Proof.
  pose proof (processIfBlock_run t condition show) as H.
  now apply processIfBlock_fuel_stable in H as (_ & H & _).
Qed.






End IfBlocks.

Section IfBlocksMore.
Import GoStrings errorpages.


(** An end index that the search loop returns is the place of an end
    marker. *)
Lemma findEnd_found (fuel : nat) (result pend : string)
    (searchPos nestLevel e : Z) :
  findEnd fuel result pend searchPos nestLevel = Some e ->
  e <> -1 -> occurs pend result.
Proof.
  revert searchPos nestLevel.
  induction fuel as [|k IH]; intros searchPos nestLevel; [discriminate|].
  cbn [findEnd].
  destruct (searchPos <? len result); cbn [negb];
    [|intros [= <-]; congruence].
  destruct (Index (sliceFrom result searchPos) pend =? -1) eqn:E1;
    cbn [negb andb].
  - destruct (Index (sliceFrom result searchPos) nestedIf =? -1);
      cbn [negb]; [intros [= <-]; congruence | apply IH].
  - apply Z.eqb_neq, Index_occurs in E1.
    intros _ _. eapply occurs_trans; [exact E1 | apply occurs_skipn].
Qed.

Lemma scanPatterns_no_end (again : string -> option string)
    (result : string) (show : bool) (ps : list (string * string)) :
  Forall (fun p => p.1 <> "" /\ p.2 <> "" /\ ~ occurs p.2 result) ps ->
  scanPatterns again result show ps = Some result.
Proof.
  induction 1 as [|[pstart pend] ps (Hs & He & Hn) _ IH]; [reflexivity|].
  cbn [fst snd] in Hs, He, Hn. cbn [scanPatterns].
  destruct (Index result pstart =? -1) eqn:E1; [exact IH|].
  apply Z.eqb_neq, Index_bound in E1.
  destruct (findEnd_total (S (String.length result)) result pend
              (Index result pstart + len pstart) 1 He)
    as [e Ee]; [pose proof (len_nonneg pstart); lia | unfold len in *; lia|].
  rewrite Ee. destruct (e =? -1) eqn:E2; [exact IH|].
  apply Z.eqb_neq in E2. exfalso. apply Hn. eapply findEnd_found; eauto.
Qed.

(** X14: a template that opens conditionals but holds none of the end
    markers is not rejected: the conditional pass returns it unchanged,
    with the opening markers left in the text. *)
Theorem processConditionals_unmatched_open (t : string) (data : TemplateData)
    (Hno : Forall (fun m => ~ occurs m t) spec.endMarkers) :
  processConditionals t data = t.
Proof.
  unfold spec.endMarkers in Hno.
  apply Forall_cons in Hno as [H1 Hno]. apply Forall_cons in Hno as [H2 Hno].
  apply Forall_cons in Hno as [H3 Hno]. apply Forall_cons in Hno as [H4 _].
  assert (Hc : processComplexRefreshConditional t
                 (shouldAutoRefresh (Code data)) = t).
  { unfold processComplexRefreshConditional.
    destruct (Index t refreshStart =? -1); [reflexivity|].
    rewrite Index_absent; [reflexivity|].
    intros Ho. apply H2. eapply occurs_trans; [exact Ho | apply occurs_skipn]. }
  assert (Hb : forall condition show, processIfBlock t condition show = t).
  { intros condition show. unfold processIfBlock.
    cbn [processIfBlock_fuel]. rewrite scanPatterns_no_end; [reflexivity|].
    unfold patterns. repeat constructor; cbn [fst snd];
      try discriminate; assumption. }
  unfold processConditionals. now rewrite Hc, !Hb.
Qed.

Lemma processConditionals_unmatched_open_witness :
  processConditionals
    ("<p>{{ code }}</p><!-- {{- if show_details -}} --><table></table>")
    (mkTemplateData 404 "" "" false "" "" "" "" 1 false "")
  = "<p>{{ code }}</p><!-- {{- if show_details -}} --><table></table>".
Proof.
  apply processConditionals_unmatched_open.
  unfold spec.endMarkers. repeat constructor; apply index_nat_None; reflexivity.
Defined.

End IfBlocksMore.

(* ------------------------------------------------------------------ *)
(** ** The row cleanup of the rendered page                            *)

Section Cleanup.
Import GoStrings errorpages.

Lemma not_occurs_cons (c0 c : ascii) (s : string) :
  ~ occurs (String c0 "") (String c s) ->
  c0 <> c /\ ~ occurs (String c0 "") s.
Proof.
  intros H. split.
  - intros ->. apply H. now exists "", s.
  - intros Ho. apply H. now apply occurs_cons.
Qed.

Lemma prefix_byte (c0 c : ascii) (s : string) :
  c0 <> c -> String.prefix (String c0 "") (String c s) = false.
Proof.
  intros H. cbn [String.prefix]. destruct (ascii_dec c0 c); [contradiction|].
  reflexivity.
Qed.

Lemma split_go_last (c0 : ascii) (l : string) :
  ~ occurs (String c0 "") l -> split_go (String c0 "") 0 l = (l, []).
Proof.
  induction l as [|c l IH]; intros H; [reflexivity|].
  apply not_occurs_cons in H as [Hc H].
  cbn [split_go]. rewrite (prefix_byte _ _ _ Hc), (IH H). reflexivity.
Qed.

Lemma split_go_line (c0 : ascii) (l rest : string) :
  ~ occurs (String c0 "") l ->
  split_go (String c0 "") 0 (l +:+ String c0 rest)
  = (l, Split rest (String c0 "")).
Proof.
  induction l as [|c l IH]; intros H.
  - change ("" +:+ String c0 rest) with (String c0 rest).
    cbn [split_go String.length Nat.sub]. cbn [String.prefix]. destruct (ascii_dec c0 c0); [|contradiction]. rewrite str_prefix_nil.
    unfold Split. now destruct (split_go (String c0 "") 0 rest).
  - apply not_occurs_cons in H as [Hc H].
    change (String c l +:+ String c0 rest)
      with (String c (l +:+ String c0 rest)).
    cbn [split_go]. rewrite (prefix_byte _ _ _ Hc), (IH H). reflexivity.
Qed.

Lemma Split_Join_byte (c0 : ascii) (ls : list string) :
  ls <> [] -> Forall (fun l => ~ occurs (String c0 "") l) ls ->
  Split (Join ls (String c0 "")) (String c0 "") = ls.
Proof.
  intros Hne H. induction H as [|x ls Hx Hls IH]; [contradiction|].
  destruct ls as [|y ls].
  - unfold Join, Split. cbn [String.concat]. now rewrite (split_go_last _ _ Hx).
  - unfold Join.
    change (String.concat (String c0 "") (x :: y :: ls))
      with (x +:+ String c0 (Join (y :: ls) (String c0 ""))).
    unfold Split at 1. rewrite (split_go_line _ _ _ Hx).
    now rewrite IH.
Qed.

(** On a page given by its lines, with none of the leftover markers in
    it, [cleanupEmptyRows] is the loop over these lines. *)
Lemma cleanupEmptyRows_lines (lines : list string) :
  lines <> [] -> Forall spec.oneLine lines ->
  Forall (fun m => ~ occurs m (Join lines nl)) leftoverMarkers ->
  cleanupEmptyRows (Join lines nl) = Join (cleanLines false lines) nl.
Proof.
  intros Hne Hl Hm. unfold cleanupEmptyRows.
  assert (E : fold_left (fun result m => ReplaceAll result m "")
                leftoverMarkers (Join lines nl) = Join lines nl).
  { induction Hm as [|m ms Hm _ IH]; [reflexivity|].
    cbn [fold_left]. now rewrite (ReplaceAll_absent _ _ _ Hm). }
  rewrite E. unfold spec.oneLine in Hl.
  pose proof (Split_Join_byte "010"%char lines Hne Hl) as E2.
  change (String "010"%char "") with nl in E2. now rewrite E2.
Qed.

Lemma cleanLines_kept (pre rest : list string) :
  Forall (fun l => spec.lineHas "<tr>" l = false) pre ->
  cleanLines false (pre ++ rest) = pre ++ cleanLines false rest.
Proof.
  induction 1 as [|l pre H _ IH]; [reflexivity|].
  cbn [List.app cleanLines]. unfold spec.lineHas in H. rewrite H.
  cbn [andb]. now rewrite IH.
Qed.

Lemma hasEmptyValue_near (n : nat) (labels : list string) (empty : string)
    (rest : list string) :
  Forall (fun l => spec.lineHas emptyValueCell l = false
                   /\ spec.lineHas "</tr>" l = false) labels ->
  (length labels < n)%nat ->
  spec.lineHas emptyValueCell empty = true ->
  hasEmptyValue n (labels ++ empty :: rest) = true.
Proof.
  intros H. revert n. induction H as [|l labels [H1 H2] _ IH]; intros n Hn He.
  - destruct n as [|n]; [inversion Hn|].
    cbn [List.app hasEmptyValue]. unfold spec.lineHas in He. now rewrite He.
  - destruct n as [|n]; [inversion Hn|].
    cbn [List.app hasEmptyValue]. unfold spec.lineHas in H1, H2.
    rewrite H1, H2. apply IH; [cbn [length] in Hn; lia | exact He].
Qed.

Lemma hasEmptyValue_far (n : nat) (window rest : list string) :
  Forall (fun l => spec.lineHas emptyValueCell l = false) window ->
  (n <= length window)%nat ->
  hasEmptyValue n (window ++ rest) = false.
Proof.
  intros H. revert n. induction H as [|l window H1 _ IH]; intros n Hn.
  - cbn [length] in Hn. now replace n with 0%nat by lia.
  - destruct n as [|n]; [reflexivity|].
    cbn [List.app hasEmptyValue]. unfold spec.lineHas in H1. rewrite H1.
    destruct (Contains (TrimSpace l) "</tr>"); [reflexivity|].
    apply IH. cbn [length] in Hn. lia.
Qed.

Lemma cleanLines_skipped (labels rest : list string) :
  Forall (fun l => spec.lineHas emptyValueCell l = false
                   /\ spec.lineHas "</tr>" l = false) labels ->
  cleanLines true (labels ++ rest) = cleanLines true rest.
Proof.
  induction 1 as [|l labels [_ H2] _ IH]; [reflexivity|].
  cbn [List.app cleanLines]. unfold spec.lineHas in H2. rewrite H2.
  cbn [negb]. rewrite IH. now destruct (_ && _).
Qed.

(** X15: a table row whose value cell is empty is removed whole. On a
    page without leftover markers, a row made of a line with [<tr>], up
    to three lines without the empty value cell and without [</tr>],
    the line of the empty value cell and the line with [</tr>] is
    dropped; the lines before it, which hold no [<tr>], are kept, and
    the cleanup goes on with the lines after it. *)
Theorem cleanupEmptyRows_drops_empty_row (pre labels post : list string)
    (open empty close : string)
    (Hlines : Forall spec.oneLine
                (pre ++ open :: labels ++ empty :: close :: post))
    (Hmarkers :
       Forall (fun m =>
                 ~ occurs m (Join (pre ++ open :: labels ++ empty
                                   :: close :: post) nl))
         leftoverMarkers)
    (Hpre : Forall (fun l => spec.lineHas "<tr>" l = false) pre)
    (Hopen : spec.lineHas "<tr>" open = true)
    (Hlabels : Forall (fun l => spec.lineHas emptyValueCell l = false
                                /\ spec.lineHas "</tr>" l = false) labels)
    (Hwindow : (length labels < 4)%nat)
    (Hempty : spec.lineHas emptyValueCell empty = true
              /\ spec.lineHas "</tr>" empty = false)
    (Hclose : spec.lineHas "</tr>" close = true
              /\ spec.lineHas "<tr>" close = false) :
  cleanupEmptyRows
    (Join (pre ++ open :: labels ++ empty :: close :: post) nl)
  = Join (pre ++ cleanLines false post) nl.
Proof.
  rewrite cleanupEmptyRows_lines; [|now destruct pre|assumption..].
  f_equal. rewrite (cleanLines_kept _ _ Hpre). f_equal.
  destruct Hempty as [He1 He2], Hclose as [Hc1 Hc2].
  cbn [cleanLines]. unfold spec.lineHas in Hopen. rewrite Hopen.
  rewrite (hasEmptyValue_near 4 _ _ _ Hlabels Hwindow He1). cbn [andb].
  rewrite (cleanLines_skipped _ _ Hlabels).
  cbn [cleanLines]. unfold spec.lineHas in He2, Hc1, Hc2.
  rewrite He2, Hc1, Hc2. cbn [negb andb].
  now destruct (_ && _).
Qed.

Lemma cleanupEmptyRows_drops_empty_row_witness :
  cleanupEmptyRows
    (Join
       ["<table>"; "<tr>";
        "  <td class=" +:+ dq +:+ "label" +:+ dq +:+ ">Host</td>";
        "  " +:+ emptyValueCell; "</tr>"; "</table>"] nl)
  = Join ["<table>"; "</table>"] nl.
Proof.
  apply (cleanupEmptyRows_drops_empty_row
           ["<table>"]
           ["  <td class=" +:+ dq +:+ "label" +:+ dq +:+ ">Host</td>"]
           ["</table>"] "<tr>" ("  " +:+ emptyValueCell) "</tr>").
  - repeat constructor; apply index_nat_None; reflexivity.
  - repeat constructor; apply index_nat_None; reflexivity.
  - repeat constructor.
  - reflexivity.
  - repeat constructor.
  - cbn [length]. lia.
  - split; reflexivity.
  - split; reflexivity.
Defined.

(** X16: the look-ahead of the row cleanup ends four lines after
    [<tr>]. A row whose empty value cell comes after four or more lines
    that hold neither the empty value cell nor [<tr>] is kept, with its
    empty cell, and the cleanup goes on with the lines after it. *)
Theorem cleanupEmptyRows_look_ahead (pre window post : list string)
    (open empty close : string)
    (Hlines : Forall spec.oneLine
                (pre ++ open :: window ++ empty :: close :: post))
    (Hmarkers :
       Forall (fun m =>
                 ~ occurs m (Join (pre ++ open :: window ++ empty
                                   :: close :: post) nl))
         leftoverMarkers)
    (Hpre : Forall (fun l => spec.lineHas "<tr>" l = false) pre)
    (Hrow : Forall (fun l => spec.lineHas emptyValueCell l = false
                             /\ spec.lineHas "<tr>" l = false) window)
    (Hwindow : (4 <= length window)%nat)
    (Hempty : spec.lineHas "<tr>" empty = false)
    (Hclose : spec.lineHas "<tr>" close = false) :
  cleanupEmptyRows
    (Join (pre ++ open :: window ++ empty :: close :: post) nl)
  = Join (pre ++ open :: window ++ empty :: close :: cleanLines false post)
      nl.
Proof.
  rewrite cleanupEmptyRows_lines; [|now destruct pre|assumption..].
  f_equal. rewrite (cleanLines_kept _ _ Hpre). f_equal.
  cbn [cleanLines].
  rewrite (hasEmptyValue_far 4 window (empty :: close :: post));
    [|eapply Forall_impl; [exact Hrow|]; now intros l [H _]|exact Hwindow].
  rewrite andb_false_r. f_equal.
  rewrite (cleanLines_kept window);
    [|eapply Forall_impl; [exact Hrow|]; now intros l [_ H]].
  f_equal.
  apply (cleanLines_kept [empty; close] post). now repeat constructor.
Qed.

Lemma cleanupEmptyRows_look_ahead_witness :
  cleanupEmptyRows
    (Join
       ["<tr>"; "<td>"; "Host"; "</td>"; ""; emptyValueCell; "</tr>"] nl)
  = Join
      ["<tr>"; "<td>"; "Host"; "</td>"; ""; emptyValueCell; "</tr>"] nl.
Proof.
  apply (cleanupEmptyRows_look_ahead [] ["<td>"; "Host"; "</td>"; ""] []
           "<tr>" emptyValueCell "</tr>").
  - repeat constructor; apply index_nat_None; reflexivity.
  - repeat constructor; apply index_nat_None; reflexivity.
  - constructor.
  - repeat constructor.
  - cbn [length]. lia.
  - reflexivity.
  - reflexivity.
Defined.

End Cleanup.

(* ------------------------------------------------------------------ *)
(** ** The preprocessing pass of the [text/template] variant           *)

Section PreprocessPass.
Import GoStrings errorpages_tmpl.

(** *** White space at the two ends *)

Lemma space_width_app (a b : string) (w : nat) :
  space_width a = S w -> space_width (a +:+ b) = S w.
Proof.
  destruct a as [|x [|y [|z a]]]; [discriminate| | |];
    unfold space_width; cbn [String.append];
    destruct (asciiSpace x); try (intros H; exact H);
    destruct (utf8.byte_val x =? 194); try discriminate;
    intros H; exact H.
Qed.

Lemma space_width_firstn (n : nat) (s : string) :
  space_width s = 0%nat -> space_width (firstn n s) = 0%nat.
Proof.
  intros H. destruct (space_width (firstn n s)) as [|w] eqn:E; [reflexivity|].
  apply (space_width_app _ (skipn n s)) in E.
  rewrite str_firstn_skipn in E. congruence.
Qed.

Lemma trimLeftSpace_fixed (n : nat) (s : string) :
  space_width s = 0%nat -> trimLeftSpace n s = s.
Proof. intros H. destruct n; cbn [trimLeftSpace]; now rewrite ?H. Qed.

Lemma trimLeftSpace_rev_fixed (n : nat) (r : string) :
  space_width_rev r = 0%nat -> trimLeftSpace_rev n r = r.
Proof. intros H. destruct n; cbn [trimLeftSpace_rev]; now rewrite ?H. Qed.

Lemma str_length_rev (s : string) : String.length (rev s) = String.length s.
Proof.
  induction s as [|c s IH]; [reflexivity|].
  cbn [rev]. rewrite str_length_app, IH. cbn. lia.
Qed.

(** The bytes that [space_width_rev] counts at the end of a string
    are a white-space sequence. *)
Lemma space_width_rev_spec (r : string) (w : nat) :
  space_width_rev r = S w ->
  exists a, space_width a = S w /\ rev r = rev (skipn (S w) r) +:+ a.
Proof.
  destruct r as [|b1 r]; [discriminate|].
  unfold space_width_rev.
  destruct (asciiSpace b1) eqn:E1.
  - intros [= <-]. exists (String b1 ""). split.
    + unfold space_width. now rewrite E1.
    + reflexivity.
  - destruct r as [|b0 r]; [discriminate|].
    destruct (space_width (String b0 (String b1 "")) =? 2)%nat eqn:E2.
    + intros [= <-]. exists (String b0 (String b1 "")). split.
      * now apply Nat.eqb_eq in E2.
      * cbn [skipn rev]. now rewrite !str_app_assoc.
    + destruct r as [|a r]; [discriminate|].
      destruct (space_width (String a (String b0 (String b1 ""))) =? 3)%nat
        eqn:E3; [|discriminate].
      intros [= <-]. exists (String a (String b0 (String b1 ""))). split.
      * now apply Nat.eqb_eq in E3.
      * cbn [skipn rev]. now rewrite !str_app_assoc.
Qed.

Lemma trimLeftSpace_rev_empty (n : nat) (r : string) :
  trimLeftSpace_rev n r = "" -> r = "" \/ space_width (rev r) <> 0%nat.
Proof.
  revert r. induction n as [|n IH]; intros r; cbn [trimLeftSpace_rev];
    [now left|].
  destruct (space_width_rev r) as [|w] eqn:E; [now left|].
  intros H. right. destruct (space_width_rev_spec _ _ E) as (a & Ha & Er).
  rewrite Er. destruct (IH _ H) as [H0|H0].
  - rewrite H0. cbn [rev]. change ("" +:+ a) with a. congruence.
  - destruct (space_width (rev (skipn (S w) r))) as [|v] eqn:Ev;
      [contradiction|].
    now rewrite (space_width_app _ a _ Ev).
Qed.

(** [TrimSpace] leaves a prefix of the string after its leading white
    space. *)
Lemma trimLeftSpace_rev_suffix (n : nat) (r : string) :
  exists u, r = u +:+ trimLeftSpace_rev n r.
Proof.
  revert r. induction n as [|n IH]; intros r; cbn [trimLeftSpace_rev];
    [now exists ""|].
  destruct (space_width_rev r) as [|w]; [now exists ""|].
  destruct (IH (skipn (S w) r)) as (u & Hu).
  exists (firstn (S w) r +:+ u).
  rewrite str_app_assoc, <- Hu. now rewrite str_firstn_skipn.
Qed.

Lemma TrimSpace_prefix (s : string) :
  exists v, trimLeftSpace (String.length s) s = TrimSpace s +:+ v.
Proof.
  unfold TrimSpace. set (t := trimLeftSpace (String.length s) s).
  destruct (trimLeftSpace_rev_suffix (String.length t) (rev t)) as (u & Hu).
  exists (rev u). rewrite <- str_rev_app, <- Hu. now rewrite str_rev_involutive.
Qed.

Lemma TrimSpace_no_leading_space (s : string) :
  space_width (TrimSpace s) = 0%nat.
Proof.
  destruct (TrimSpace_prefix s) as (v & Hv).
  destruct (space_width (TrimSpace s)) as [|w] eqn:E; [reflexivity|].
  apply (space_width_app _ v) in E. rewrite <- Hv in E.
  rewrite trimLeftSpace_done in E; [discriminate | lia].
Qed.

Lemma TrimSpace_idempotent (s : string) : TrimSpace (TrimSpace s) = TrimSpace s.
Proof.
  pose proof (TrimSpace_no_leading_space s) as Hl.
  assert (Hr : space_width_rev (rev (TrimSpace s)) = 0%nat).
  { unfold TrimSpace. rewrite str_rev_involutive.
    apply trimLeftSpace_rev_done. now rewrite str_length_rev. }
  unfold TrimSpace at 1.
  rewrite (trimLeftSpace_fixed _ _ Hl), (trimLeftSpace_rev_fixed _ _ Hr).
  apply str_rev_involutive.
Qed.

(** A string that does not start with white space keeps its first byte. *)
Lemma TrimSpace_head (c : ascii) (s : string) :
  space_width (String c s) = 0%nat ->
  exists q, TrimSpace (String c s) = String c q.
Proof.
  intros H. destruct (TrimSpace_prefix (String c s)) as (v & Hv).
  rewrite (trimLeftSpace_fixed _ _ H) in Hv.
  destruct (TrimSpace (String c s)) as [|d q] eqn:E.
  - exfalso. unfold TrimSpace in E.
    rewrite (trimLeftSpace_fixed _ _ H) in E.
    apply (f_equal rev) in E. rewrite str_rev_involutive in E.
    change (rev "") with "" in E.
    apply trimLeftSpace_rev_empty in E as [E|E].
    + apply (f_equal rev) in E. rewrite str_rev_involutive in E. discriminate E.
    + rewrite str_rev_involutive in E. contradiction.
  - injection Hv as -> _. now exists q.
Qed.


(** *** The first byte of an unwrapped line *)

Lemma index_nat_zero (s sub : string) :
  index_nat s sub = Some 0%nat -> String.prefix sub s = true.
Proof.
  rewrite index_nat_eq. destruct (String.prefix sub s); [reflexivity|].
  destruct s as [|c s]; [discriminate|].
  destruct (index_nat s sub); discriminate.
Qed.

(** A text that [containsOnlyDirectives] accepts starts, after its
    leading white space, with the opening delimiter. *)
Lemma containsOnlyDirectives_head (s : string) :
  containsOnlyDirectives s = true -> HasPrefix (TrimSpace s) "{{" = true.
Proof.
  unfold containsOnlyDirectives.
  pose proof (TrimSpace_no_leading_space s) as Hs.
  set (t := TrimSpace s) in *.
  destruct (String.eqb t "") eqn:Et; [discriminate|].
  apply String.eqb_neq in Et.
  cbn [directivesLoop].
  destruct (negb (0 <? len t)); [discriminate|].
  destruct (Index t "{{" =? -1) eqn:Ei; [discriminate|].
  apply Z.eqb_neq in Ei. destruct (Index_found _ _ Ei) as (n & En & Ez).
  rewrite Ez. unfold sliceTo. rewrite Nat2Z.id.
  destruct (String.eqb (TrimSpace (firstn n t)) "") eqn:Ep; cbn [negb];
    [|discriminate].
  intros _. apply String.eqb_eq in Ep.
  destruct n as [|n]; [now apply index_nat_zero|].
  exfalso. destruct t as [|c t]; [now apply Et|].
  pose proof (space_width_firstn (S n) _ Hs) as Hf. cbn [firstn] in Hf, Ep.
  destruct (TrimSpace_head _ _ Hf) as (q & Hq). congruence.
Qed.

Lemma TrimLeft_app_last (a cutset : string) (c : ascii) :
  in_cutset c cutset = false ->
  TrimLeft (a +:+ String c "") cutset = TrimLeft a cutset +:+ String c "".
Proof.
  intros H. induction a as [|x a IH].
  - cbn [String.append TrimLeft]. now rewrite H.
  - change (String x a +:+ String c "") with (String x (a +:+ String c "")).
    cbn [TrimLeft]. destruct (in_cutset x cutset); [exact IH | reflexivity].
Qed.

Lemma TrimRight_cons (c : ascii) (q cutset : string) :
  in_cutset c cutset = false ->
  TrimRight (String c q) cutset = String c (TrimRight q cutset).
Proof.
  intros H. unfold TrimRight. cbn [rev].
  rewrite (TrimLeft_app_last _ _ _ H), str_rev_app. reflexivity.
Qed.

Lemma ensureOuterTrimMarkers_head (s : string) :
  HasPrefix s "{{" = true ->
  exists r, ensureOuterTrimMarkers s = String "{" r.
Proof.
  intros H. unfold ensureOuterTrimMarkers. rewrite H. cbn [andb].
  set (s1 := if negb (HasPrefix s "{{-") then _ else _).
  assert (H1 : exists m, s1 = String "{" m).
  { subst s1. destruct (negb (HasPrefix s "{{-")); [eexists; reflexivity|].
    apply str_prefix_split in H. rewrite H. eexists. reflexivity. }
  destruct H1 as (m & ->).
  destruct (HasSuffix (String "{" m) "}}" && _) eqn:E; [|now exists m].
  apply andb_true_iff in E as [E _]. unfold HasSuffix in E.
  apply andb_true_iff in E as [El Ee].
  destruct m as [|x [|y m]]; [discriminate El | discriminate Ee|].
  unfold sliceTo.
  replace (Z.to_nat (len (String "{" (String x (String y m))) - 2))
    with (S (String.length m)) by (unfold len; cbn [String.length]; lia).
  cbn [firstn]. rewrite TrimRight_cons by reflexivity.
  eexists. reflexivity.
Qed.

Lemma space_width_brace (r : string) : space_width (String "{" r) = 0%nat.
Proof. destruct r as [|a [|b r]]; reflexivity. Qed.

(** A line that starts with an opening brace is in none of the three
    comment wrappers. *)
Lemma preprocessLine_brace (r : string) :
  preprocessLine (String "{" r) = String "{" r.
Proof.
  unfold preprocessLine.
  destruct (TrimSpace_head _ _ (space_width_brace r)) as (q & ->).
  reflexivity.
Qed.

Lemma preprocessLine_cases (line : string) :
  preprocessLine line = line \/ exists r, preprocessLine line = String "{" r.
Proof.
  destruct (string_dec (preprocessLine line) line) as [E|E]; [now left|].
  right. destruct (preprocessLine_changed _ E) as (inner & Hc & -> & Hi).
  apply ensureOuterTrimMarkers_head.
  apply containsOnlyDirectives_head in Hc.
  assert (Ht : TrimSpace inner = inner).
  { destruct Hi as [(_ & _ & ->)|[(_ & _ & ->)|(_ & _ & ->)]];
      apply TrimSpace_idempotent. }
  now rewrite Ht in Hc.
Qed.

Lemma preprocessLine_idempotent (line : string) :
  preprocessLine (preprocessLine line) = preprocessLine line.
Proof.
  destruct (preprocessLine_cases line) as [E|(r & E)].
  - now rewrite E.
  - rewrite E. apply preprocessLine_brace.
Qed.


(** *** Lines stay lines *)

Lemma not_occurs_byte_app (c : ascii) (a b : string) :
  ~ occurs (String c "") a -> ~ occurs (String c "") b ->
  ~ occurs (String c "") (a +:+ b).
Proof.
  intros Ha Hb. induction a as [|x a IH]; [exact Hb|].
  apply not_occurs_cons in Ha as [Hx Ha].
  intros (u & v & E). destruct u as [|y u].
  - injection E as E _. congruence.
  - injection E as _ E. apply (IH Ha). now exists u, v.
Qed.

Lemma occurs_TrimLeft (s cutset : string) : occurs (TrimLeft s cutset) s.
Proof.
  induction s as [|c s IH]; [apply occurs_refl|].
  cbn [TrimLeft]. destruct (in_cutset c cutset);
    [now apply occurs_cons | apply occurs_refl].
Qed.

Lemma occurs_TrimRight (s cutset : string) : occurs (TrimRight s cutset) s.
Proof. unfold TrimRight. apply occurs_rev_l, occurs_TrimLeft. Qed.

Lemma oneLine_occurs (x s : string) :
  occurs x s -> spec.oneLine s -> spec.oneLine x.
Proof. intros Hx Hs Hn. apply Hs. eapply occurs_trans; eauto. Qed.

Lemma ensureOuterTrimMarkers_oneLine (s : string) :
  spec.oneLine s -> spec.oneLine (ensureOuterTrimMarkers s).
Proof.
  intros H. unfold ensureOuterTrimMarkers.
  set (s1 := if HasPrefix s "{{" && _ then _ else _).
  assert (H1 : spec.oneLine s1).
  { subst s1. destruct (HasPrefix s "{{" && _); [|exact H].
    apply not_occurs_byte_app; [apply index_nat_None; reflexivity|].
    eapply oneLine_occurs; [|exact H].
    eapply occurs_trans; [apply occurs_TrimLeft | apply occurs_skipn]. }
  destruct (HasSuffix s1 "}}" && _); [|exact H1].
  apply not_occurs_byte_app; [|apply index_nat_None; reflexivity].
  eapply oneLine_occurs; [|exact H1].
  eapply occurs_trans; [apply occurs_TrimRight | apply occurs_firstn].
Qed.

Lemma preprocessLine_oneLine (line : string) :
  spec.oneLine line -> spec.oneLine (preprocessLine line).
Proof.
  intros H.
  destruct (string_dec (preprocessLine line) line) as [E|E]; [now rewrite E|].
  destruct (preprocessLine_changed _ E) as (inner & _ & -> & Hi).
  apply ensureOuterTrimMarkers_oneLine.
  eapply oneLine_occurs; [|exact H].
  eapply occurs_trans; [|apply occurs_TrimSpace].
  destruct Hi as [(_ & _ & ->)|[(_ & _ & ->)|(_ & _ & ->)]];
    (eapply occurs_trans; [apply occurs_TrimSpace|]);
    [eapply occurs_trans; [apply occurs_TrimSuffix | apply occurs_TrimPrefix]..
    |apply occurs_TrimPrefix].
Qed.

Lemma not_occurs_byte_cons (c0 c : ascii) (s : string) :
  c0 <> c -> ~ occurs (String c0 "") s -> ~ occurs (String c0 "") (String c s).
Proof.
  intros Hc Hs. apply (not_occurs_byte_app c0 (String c "") s); [|exact Hs].
  intros (u & v & E). destruct u as [|y [|z u]]; try discriminate E.
  injection E as E _. congruence.
Qed.

Lemma split_go_oneLine (c0 : ascii) (s : string) :
  Forall (fun l => ~ occurs (String c0 "") l)
    (fst (split_go (String c0 "") 0 s) :: snd (split_go (String c0 "") 0 s)).
Proof.
  assert (Hnil : ~ occurs (String c0 "") "").
  { apply index_nat_None. reflexivity. }
  induction s as [|c s IH]; [now repeat constructor|].
  cbn [split_go String.length Nat.sub].
  destruct (split_go (String c0 "") 0 s) as [p ps]. cbn [fst snd] in IH.
  destruct (String.prefix (String c0 "") (String c s)) eqn:E; cbn [fst snd].
  - now constructor.
  - apply Forall_cons in IH as [Hp Hps]. constructor; [|exact Hps].
    apply not_occurs_byte_cons; [|exact Hp].
    intros ->. cbn [String.prefix] in E.
    destruct (ascii_dec c c); [|contradiction].
    now rewrite str_prefix_nil in E.
Qed.

Lemma Split_oneLine (s : string) : Forall spec.oneLine (Split s nl).
Proof.
  pose proof (split_go_oneLine "010"%char s) as H.
  unfold Split, nl. now destruct (split_go (String "010"%char "") 0 s).
Qed.

Lemma Split_nonempty (s : string) : Split s nl <> [].
Proof.
  unfold Split, nl. now destruct (split_go (String "010"%char "") 0 s).
Qed.

(** X17: the preprocessing pass works line by line: the lines of its
    result are the lines of the template, each one put through the body
    of the loop, so that it neither joins nor breaks lines. *)
Theorem preprocessTemplate_lines (raw : string) :
  Split (preprocessTemplate raw) nl = map preprocessLine (Split raw nl).
Proof.
  unfold preprocessTemplate.
  apply (Split_Join_byte "010"%char).
  - pose proof (Split_nonempty raw). now destruct (Split raw nl).
  - apply Forall_map. eapply Forall_impl; [apply Split_oneLine|].
    intros l Hl. now apply preprocessLine_oneLine.
Qed.

(** X18: preprocessing is idempotent. A line taken out of its comment
    wrapper starts with the opening delimiter, so that a second pass
    finds it in none of the three wrappers. *)
Theorem preprocessTemplate_idempotent (raw : string) :
  preprocessTemplate (preprocessTemplate raw) = preprocessTemplate raw.
Proof.
  assert (E : Split (preprocessTemplate raw) nl
              = map preprocessLine (Split raw nl)).
  { unfold preprocessTemplate.
    apply (Split_Join_byte "010"%char).
    - pose proof (Split_nonempty raw). now destruct (Split raw nl).
    - apply Forall_map. eapply Forall_impl; [apply Split_oneLine|].
      intros l Hl. now apply preprocessLine_oneLine. }
  unfold preprocessTemplate at 1. rewrite E, map_map.
  unfold preprocessTemplate. f_equal. apply map_ext.
  apply preprocessLine_idempotent.
Qed.


(** *** The two ends of an unwrapped line *)

Lemma HasSuffix_split (s suffix : string) :
  HasSuffix s suffix = true -> exists u, s = u +:+ suffix.
Proof.
  unfold HasSuffix. intros H. apply andb_true_iff in H as [_ H].
  apply String.eqb_eq in H. unfold sliceFrom in H.
  exists (firstn (Z.to_nat (len s - len suffix)) s).
  rewrite <- (str_firstn_skipn (Z.to_nat (len s - len suffix)) s) at 1.
  now rewrite H.
Qed.

Lemma HasSuffix_app_r (x u suffix : string) :
  HasSuffix u suffix = true -> HasSuffix (x +:+ u) suffix = true.
Proof.
  intros H. apply HasSuffix_split in H as (v & ->).
  rewrite <- str_app_assoc. apply HasSuffix_app.
Qed.

(** A text that the loop of [containsOnlyDirectives] accepts is a run
    of actions, ending with the closing delimiter, and white space
    after it. *)
Lemma directivesLoop_tail (fuel : nat) (remaining : string) (found : bool) :
  directivesLoop fuel remaining found = Some true ->
  exists u v,
    remaining = u +:+ v /\ TrimSpace v = ""
    /\ ((u = "" /\ found = true) \/ HasSuffix u "}}" = true).
Proof.
  revert remaining found.
  induction fuel as [|k IH]; intros remaining found; [discriminate|].
  cbn [directivesLoop].
  destruct (negb (0 <? len remaining)) eqn:E0.
  { intros [= ->]. exists "", remaining. repeat split; [|now left].
    destruct remaining; [reflexivity | discriminate E0]. }
  destruct (Index remaining "{{" =? -1) eqn:E1.
  { intros [= H]. apply andb_true_iff in H as [-> H].
    apply String.eqb_eq in H. exists "", remaining. repeat split; auto. }
  apply Z.eqb_neq in E1. destruct (Index_found _ _ E1) as (i & _ & ->).
  destruct (negb (String.eqb (TrimSpace (sliceTo remaining (Z.of_nat i))) ""));
    [discriminate|].
  unfold sliceFrom. rewrite !Nat2Z.id.
  destruct (Index (skipn i remaining) "}}" =? -1) eqn:E2; [discriminate|].
  apply Z.eqb_neq in E2. destruct (Index_found _ _ E2) as (e & Ee & ->).
  destruct (negb (isControlKeyword _)); [discriminate|].
  intros H. apply IH in H as (u & v & E & Hv & Hu).
  replace (Z.to_nat (Z.of_nat i + Z.of_nat e + 2)) with (i + (e + 2))%nat
    in E by lia.
  rewrite str_skipn_add in E.
  apply index_nat_split in Ee. cbn [String.length] in Ee.
  exists ((firstn i remaining +:+ firstn e (skipn i remaining)) +:+ "}}" +:+ u),
    v.
  split; [|split; [exact Hv|right]].
  - rewrite <- (str_firstn_skipn i remaining) at 1. rewrite Ee at 1.
    rewrite E. now rewrite !str_app_assoc.
  - rewrite <- str_app_assoc. destruct Hu as [[-> _]|Hu].
    + rewrite str_app_nil_r. apply HasSuffix_app.
    + now apply HasSuffix_app_r.
Qed.

Lemma space_width_rev_app (r r' : string) (w : nat) :
  space_width_rev r = S w -> space_width_rev (r +:+ r') = S w.
Proof.
  destruct r as [|b1 r]; [discriminate|].
  unfold space_width_rev. cbn [String.append].
  destruct (asciiSpace b1); [intros H; exact H|].
  destruct r as [|b0 r]; [discriminate|]. cbn [String.append].
  destruct (space_width (String b0 (String b1 "")) =? 2)%nat;
    [intros H; exact H|].
  destruct r as [|a r]; [discriminate|]. cbn [String.append].
  intros H; exact H.
Qed.

Lemma space_width_exact (s : string) (w : nat) :
  space_width s = S w ->
  space_width (firstn (S w) s) = S w
  /\ String.length (firstn (S w) s) = S w.
Proof.
  destruct s as [|x s]; [discriminate|]. unfold space_width.
  destruct (asciiSpace x) eqn:E1.
  { intros [= <-]. cbn [firstn]. now rewrite E1. }
  destruct (utf8.byte_val x =? 194) eqn:E2.
  { destruct s as [|y s]; [discriminate|].
    destruct ((utf8.byte_val y =? 133) || (utf8.byte_val y =? 160)) eqn:E3;
      [|discriminate].
    intros [= <-]. cbn [firstn]. now rewrite E1, E2, E3. }
  destruct s as [|y [|z s]]; try discriminate.
  match goal with
  | |- (if ?c then _ else _) = _ -> _ => destruct c eqn:E3; [|discriminate]
  end.
  intros [= <-]. cbn [firstn]. now rewrite E1, E2, E3.
Qed.

(** A white-space sequence is seen as one from its end. *)
Lemma space_width_seen_from_end (a : string) (w : nat) :
  space_width a = S w -> String.length a = S w ->
  space_width_rev (rev a) <> 0%nat.
Proof.
  intros Hs Hl.
  destruct a as [|x [|y [|z [|t a]]]]; try discriminate Hs.
  - cbn [rev String.append]. unfold space_width_rev.
    unfold space_width in Hs.
    destruct (asciiSpace x); [discriminate|].
    destruct (utf8.byte_val x =? 194); discriminate.
  - injection Hl as <-. cbn [rev String.append]. unfold space_width_rev.
    destruct (asciiSpace y); [discriminate|].
    now rewrite Hs.
  - injection Hl as <-. cbn [rev String.append]. unfold space_width_rev.
    destruct (asciiSpace z); [discriminate|].
    destruct (space_width (String y (String z "")) =? 2)%nat; [discriminate|].
    now rewrite Hs.
  - exfalso. cbn [String.length] in Hl.
    assert (Hw : (S w <= 3)%nat).
    { revert Hs. unfold space_width.
      destruct (asciiSpace x); [intros [= <-]; lia|].
      destruct (utf8.byte_val x =? 194).
      - destruct (_ || _); [intros [= <-]; lia | discriminate].
      - match goal with
        | |- (if ?c then _ else _) = _ -> _ => destruct c
        end; [intros [= <-]; lia | discriminate]. }
    lia.
Qed.

Lemma trimLeftSpace_suffix (n : nat) (s : string) :
  exists u, s = u +:+ trimLeftSpace n s.
Proof.
  revert s. induction n as [|n IH]; intros s; cbn [trimLeftSpace];
    [now exists ""|].
  destruct (space_width s) as [|w]; [now exists ""|].
  destruct (IH (skipn (S w) s)) as (u & Hu).
  exists (firstn (S w) s +:+ u).
  rewrite str_app_assoc, <- Hu. now rewrite str_firstn_skipn.
Qed.

Lemma trimLeftSpace_empty (n : nat) (s : string) :
  trimLeftSpace n s = "" -> s = "" \/ space_width_rev (rev s) <> 0%nat.
Proof.
  revert s. induction n as [|n IH]; intros s; cbn [trimLeftSpace];
    [now left|].
  destruct (space_width s) as [|w] eqn:E; [now left|].
  intros H. right. destruct (space_width_exact _ _ E) as [Ha Hl].
  rewrite <- (str_firstn_skipn (S w) s), str_rev_app.
  destruct (IH _ H) as [H0|H0].
  - rewrite H0. cbn [rev]. change ("" +:+ ?x) with x.
    now apply (space_width_seen_from_end _ w).
  - destruct (space_width_rev (rev (skipn (S w) s))) as [|v] eqn:Ev;
      [contradiction|].
    now rewrite (space_width_rev_app _ _ _ Ev).
Qed.

(** A text that is white space only ends with white space. *)
Lemma white_space_tail (v : string) :
  v <> "" -> TrimSpace v = "" -> space_width_rev (rev v) <> 0%nat.
Proof.
  intros Hne H. unfold TrimSpace in H.
  set (t := trimLeftSpace (String.length v) v) in H.
  destruct (string_dec t "") as [Et|Et].
  - destruct (trimLeftSpace_empty _ _ Et) as [E|E]; [contradiction | exact E].
  - destruct (trimLeftSpace_suffix (String.length v) v) as (u & Hu).
    fold t in Hu. rewrite Hu, str_rev_app.
    apply (f_equal rev) in H. rewrite str_rev_involutive in H.
    change (rev "") with "" in H.
    destruct (String.length t) as [|k] eqn:El.
    { destruct t; [contradiction | discriminate El]. }
    cbn [trimLeftSpace_rev] in H.
    destruct (space_width_rev (rev t)) as [|w] eqn:Ew.
    { exfalso. apply Et. apply (f_equal rev) in H.
      now rewrite str_rev_involutive in H. }
    now rewrite (space_width_rev_app _ _ _ Ew).
Qed.

Lemma TrimSpace_no_trailing_space (s : string) :
  space_width_rev (rev (TrimSpace s)) = 0%nat.
Proof.
  unfold TrimSpace. rewrite str_rev_involutive.
  apply trimLeftSpace_rev_done. now rewrite str_length_rev.
Qed.

Lemma containsOnlyDirectives_tail (s : string) :
  containsOnlyDirectives s = true -> HasSuffix (TrimSpace s) "}}" = true.
Proof.
  unfold containsOnlyDirectives.
  pose proof (TrimSpace_no_trailing_space s) as Hs.
  set (t := TrimSpace s) in *.
  destruct (String.eqb t ""); [discriminate|].
  destruct (directivesLoop (S (String.length t)) t false) as [[]|] eqn:E;
    try discriminate.
  intros _. apply directivesLoop_tail in E as (u & v & Et & Hv & Hu).
  destruct Hu as [[_ Hu]|Hu]; [discriminate Hu|].
  destruct (string_dec v "") as [->|Hne].
  - rewrite str_app_nil_r in Et. now rewrite Et.
  - exfalso. apply (white_space_tail _ Hne) in Hv.
    rewrite Et, str_rev_app in Hs.
    destruct (space_width_rev (rev v)) as [|w] eqn:Ew; [contradiction|].
    rewrite (space_width_rev_app _ _ _ Ew) in Hs. discriminate.
Qed.


Lemma TrimLeft_app_keep (a b cutset : string) (c : ascii) :
  in_cutset c cutset = false ->
  TrimLeft (a +:+ String c b) cutset = TrimLeft a cutset +:+ String c b.
Proof.
  intros H. induction a as [|x a IH].
  - cbn [String.append TrimLeft]. now rewrite H.
  - change (String x a +:+ String c b) with (String x (a +:+ String c b)).
    cbn [TrimLeft]. destruct (in_cutset x cutset); [exact IH | reflexivity].
Qed.

(** [ensureOuterTrimMarkers] does what its name says on a text between
    the two delimiters. *)
Lemma ensureOuterTrimMarkers_markers (s : string) :
  HasPrefix s "{{" = true -> HasSuffix s "}}" = true ->
  HasPrefix (ensureOuterTrimMarkers s) "{{-" = true
  /\ HasSuffix (ensureOuterTrimMarkers s) "-}}" = true.
Proof.
  intros Hp Hs. unfold ensureOuterTrimMarkers. rewrite Hp. cbn [andb].
  set (s1 := if negb (HasPrefix s "{{-") then _ else _).
  assert (H1 : (exists m, s1 = String "{" (String "{" (String "-" m)))
               /\ HasSuffix s1 "}}" = true).
  { subst s1. destruct (HasPrefix s "{{-") eqn:E; cbn [negb].
    - split; [|exact Hs]. apply str_prefix_split in E. rewrite E.
      eexists. reflexivity.
    - split; [eexists; reflexivity|].
      apply HasSuffix_split in Hs as (u & ->).
      destruct u as [|a [|b u]]; [discriminate Hp| |].
      + exfalso. clear E. unfold HasPrefix in Hp.
        change (String a "" +:+ "}}") with (String a "}}") in Hp.
        cbn [String.prefix] in Hp.
        destruct (ascii_dec "{" a); [|discriminate Hp].
        vm_compute in Hp. discriminate Hp.
      + change (sliceFrom (String a (String b u) +:+ "}}") 2)
          with (u +:+ "}}").
        rewrite TrimLeft_app_keep by reflexivity.
        rewrite <- str_app_assoc. apply HasSuffix_app. }
  destruct H1 as [(m & E1) H2]. rewrite H2. cbn [andb].
  destruct (HasSuffix s1 "-}}") eqn:E3; cbn [negb].
  - split; [rewrite E1; apply (str_prefix_app "{{-" m) | exact E3].
  - split.
    + rewrite E1 in H2 |- *. unfold HasSuffix in H2.
      apply andb_true_iff in H2 as [El Ee].
      destruct m as [|x [|y m]]; [discriminate Ee | discriminate Ee|].
      unfold sliceTo.
      replace (Z.to_nat
                 (len (String "{" (String "{" (String "-"
                         (String x (String y m))))) - 2))
        with (S (S (S (String.length m))))
        by (unfold len; cbn [String.length]; lia).
      cbn [firstn]. rewrite !TrimRight_cons by reflexivity.
      apply (str_prefix_app "{{-").
    + change (" -}}") with (" " +:+ "-}}"). rewrite <- str_app_assoc.
      apply HasSuffix_app.
Qed.

(** X19: a line that the preprocessing pass rewrites comes out with
    both trim markers: it starts with [{{-] and ends with [-}}]. *)
Theorem preprocessLine_trim_markers (line : string)
    (Hchanged : preprocessLine line <> line) :
  HasPrefix (preprocessLine line) "{{-" = true
  /\ HasSuffix (preprocessLine line) "-}}" = true.
Proof.
  destruct (preprocessLine_changed _ Hchanged) as (inner & Hc & -> & Hi).
  assert (Ht : TrimSpace inner = inner).
  { destruct Hi as [(_ & _ & ->)|[(_ & _ & ->)|(_ & _ & ->)]];
      apply TrimSpace_idempotent. }
  pose proof (containsOnlyDirectives_head _ Hc) as Hh.
  pose proof (containsOnlyDirectives_tail _ Hc) as Hl.
  rewrite Ht in Hh, Hl. now apply ensureOuterTrimMarkers_markers.
Qed.

Lemma preprocessLine_trim_markers_witness :
  HasPrefix (preprocessLine "  <!-- {{ if .ShowDetails }} -->") "{{-" = true
  /\ HasSuffix (preprocessLine "  <!-- {{ if .ShowDetails }} -->") "-}}"
     = true.
Proof.
  apply (preprocessLine_trim_markers "  <!-- {{ if .ShowDetails }} -->").
  vm_compute. discriminate.
Defined.

End PreprocessPass.

(* ------------------------------------------------------------------ *)
(** ** Escaping loses nothing                                          *)

Section Escaping.
Import GoStrings errorpages.

Lemma isSpecial_cases (c : ascii) :
  spec.isSpecial c = false \/ In c ["&"; "<"; ">"; "034"; "'"]%char.
Proof.
  destruct c as [[] [] [] [] [] [] [] []];
    first [left; reflexivity | right; vm_compute; tauto].
Qed.

Lemma escapeByte_entity (c : ascii) :
  spec.isSpecial c = true ->
  exists e, spec.escapeByte c = String "&" e.
Proof.
  destruct (isSpecial_cases c) as [->|H]; [discriminate|]. intros _.
  cbn [In] in H.
  repeat match goal with
         | H : _ \/ _ |- _ => destruct H as [H|H]
         | H : False |- _ => destruct H
         end; subst c; eexists; reflexivity.
Qed.

Lemma escapeBytes_injective (s1 s2 : string) :
  spec.substBytes spec.escapeByte s1 = spec.substBytes spec.escapeByte s2 ->
  s1 = s2.
Proof.
  revert s2. induction s1 as [|c1 s1 IH]; intros [|c2 s2];
    cbn [spec.substBytes]; intros H.
  - reflexivity.
  - exfalso. apply (f_equal String.length) in H.
    rewrite str_length_app in H. pose proof (escapeByte_nonempty c2).
    cbn [String.length] in H. lia.
  - exfalso. apply (f_equal String.length) in H.
    rewrite str_length_app in H. pose proof (escapeByte_nonempty c1).
    cbn [String.length] in H. lia.
  - destruct (isSpecial_cases c1) as [E1|E1], (isSpecial_cases c2) as [E2|E2].
    + rewrite (escapeByte_plain _ E1), (escapeByte_plain _ E2) in H.
      injection H as -> H. now rewrite (IH _ H).
    + exfalso. rewrite (escapeByte_plain _ E1) in H.
      assert (E3 : spec.isSpecial c2 = true).
      { cbn [In] in E2.
        repeat match goal with
               | H : _ \/ _ |- _ => destruct H as [H|H]
               | H : False |- _ => destruct H
               end; subst c2; reflexivity. }
      destruct (escapeByte_entity _ E3) as (e & He). rewrite He in H.
      injection H as -> _. discriminate E1.
    + exfalso. rewrite (escapeByte_plain _ E2) in H.
      assert (E3 : spec.isSpecial c1 = true).
      { cbn [In] in E1.
        repeat match goal with
               | H : _ \/ _ |- _ => destruct H as [H|H]
               | H : False |- _ => destruct H
               end; subst c1; reflexivity. }
      destruct (escapeByte_entity _ E3) as (e & He). rewrite He in H.
      injection H as <- _. discriminate E2.
    + cbn [In] in E1, E2.
      repeat match goal with
             | H : _ \/ _ |- _ => destruct H as [H|H]
             | H : False |- _ => destruct H
             end; subst c1 c2;
        vm_compute (spec.escapeByte _) in H; cbn [String.append] in H;
        try discriminate H;
        injection H as H; now rewrite (IH _ H).
Qed.

(** X20: [htmlEscape] loses nothing: two texts have the same escaped
    form only when they are the same text. *)
Theorem htmlEscape_injective (s1 s2 : string) :
  htmlEscape s1 = htmlEscape s2 <-> s1 = s2.
Proof.
  split; [|now intros ->].
  rewrite !htmlEscape_substBytes. apply escapeBytes_injective.
Qed.

End Escaping.
